(** * Label co-occurrence clustering (skmultilearn.cluster)

    A shallow embedding of [skmultilearn/cluster/base.py] and
    [skmultilearn/cluster/graphtool.py]: the constructor validation of
    [LabelCooccurenceClustererBase], the co-occurrence edge map builder, the
    graph assembly on top of it and the model selection and cluster extraction
    of [GraphToolCooccurenceClusterer.fit_predict].

    Conventions.
    - Python dictionaries are [gmap]s; the code never depends on the order in
      which a dictionary is traversed, except for the order of the edges
      handed to the graph library, which is left to [map_to_list].
    - Edge weights are binary64 floats in the source.  Every weight the builder
      stores is [k] or [k/2] for a number of rows [k]; binary64 holds these
      exactly below 2^53, so weights are modelled as rationals ([Q]) whose
      representation is the one the arithmetic of the source produces.
    - Exceptions are values of [exn]; a fallible function returns [exn + A].
    - The files are written for Python 2 and Python 3 alike; where the two
      differ ([filter]) the interpreter is an argument. *)

From Stdlib Require Import QArith.
From stdpp Require Import gmap strings list fin_maps sorting.

Local Open Scope nat_scope.

(** ** Python values and exceptions *)

(** The fragment of Python objects a caller can pass as a configuration flag
    that matters to the checks of [__init__].  [PyFloat q] is a finite float,
    given by the rational it denotes.  Python has more objects than these
    (nan and the infinities, complex numbers, [Decimal], numpy scalars, ...):
    those that compare equal to [True] or [False] pass the membership test
    the way [1] and [1.0] do. *)
Inductive pyval :=
  | PyNone
  | PyBool (b : bool)
  | PyInt (z : Z)
  | PyFloat (q : Q)
  | PyStr (s : string).

Inductive exn :=
  | ValueError (msg : string)
  | KeyError (key : pyval)
  | IndexError (index : nat)
  | TypeError (msg : string).

Definition except (A : Type) : Type := exn + A.
Definition raise {A} (e : exn) : except A := inl e.
Definition ret {A} (a : A) : except A := inr a.
Definition bind {A B} (m : except A) (k : A → except B) : except B :=
  match m with inl e => inl e | inr a => k a end.

Declare Scope except_scope.
Delimit Scope except_scope with except.
Notation "'do' x <- m ; k" := (bind m (fun x => k))
  (at level 10, x pattern, m at level 100, k at level 200) : except_scope.

(** [bool] is a subclass of [int] in Python: [True == 1] and [False == 0]. *)
Definition int_of_bool (b : bool) : Z := if b then 1%Z else 0%Z.

(** Python's [==] on the fragment: numbers compare by value across [bool],
    [int] and [float]. *)
Definition py_eq (x y : pyval) : bool :=
  match x, y with
  | PyNone, PyNone => true
  | PyBool a, PyBool b => bool_decide (a = b)
  | PyBool a, PyInt z | PyInt z, PyBool a => bool_decide (int_of_bool a = z)
  | PyInt a, PyInt b => bool_decide (a = b)
  | PyBool a, PyFloat q | PyFloat q, PyBool a =>
      Qeq_bool q (inject_Z (int_of_bool a))
  | PyInt z, PyFloat q | PyFloat q, PyInt z => Qeq_bool q (inject_Z z)
  | PyFloat p, PyFloat q => Qeq_bool p q
  | PyStr a, PyStr b => bool_decide (a = b)
  | _, _ => false
  end.

(** [x in l] on a list: some element is equal to [x]. *)
Definition py_in (x : pyval) (l : list pyval) : bool := existsb (py_eq x) l.

(** Truth value of an object, as tested by [if], [not] and [and]. *)
Definition truthy (x : pyval) : bool :=
  match x with
  | PyNone => false
  | PyBool b => b
  | PyInt z => negb (Z.eqb z 0)
  | PyFloat q => negb (Qeq_bool q 0)
  | PyStr s => negb (bool_decide (s = ""%string))
  end.

(** The two interpreters the files are written for ([from builtins import
    range], [from __future__ import print_function]).  They differ in what
    [filter] returns: a list on Python 2, an iterator on Python 3. *)
Inductive python := Python2 | Python3.

(** [len(filter(f, xs))], where [kept] are the elements the filter keeps: the
    length of the list on Python 2; on Python 3 a filter object has no
    length. *)
Definition len_of_filter {A} (py : python) (kept : list A) : except nat :=
  match py with
  | Python2 => ret (length kept)
  | Python3 => raise (TypeError "object of type 'filter' has no len()")
  end.

(** ** [LabelCooccurenceClustererBase] *)

Record LabelCooccurenceClustererBase := {
  is_weighted : pyval;
  include_self_edges : pyval;
  normalize_self_edges : pyval;
  label_count : option nat;
  edge_map : option (gmap (nat * nat) Q)
}.

(** [__init__]: the four checks in the order of the source, then the three
    assignments.  An instance exists in the model only once the assignments
    have run: on every [raise] no attribute has been set.  [label_count] and
    [edge_map] are the attributes [generate_coocurence_adjacency_matrix] sets
    later. *)
Definition init (weighted include_self norm_self : pyval)
  : except LabelCooccurenceClustererBase :=
  if negb (py_in weighted [PyBool true; PyBool false]) then
    raise (ValueError "Weighted needs to be a boolean")
  else if negb (py_in include_self [PyBool true; PyBool false]) then
    raise (ValueError "Decision whether to include self edges needs to be a boolean")
  else if negb (py_in norm_self [PyBool true; PyBool false]) then
    raise (ValueError "Decision whether to normalize self edges needs to be a boolean")
  else if negb (truthy include_self) && truthy norm_self then
    raise (ValueError "Include self edges must be set to true if normalization is true")
  else
    ret {| is_weighted := weighted;
           include_self_edges := include_self;
           normalize_self_edges := norm_self;
           label_count := None;
           edge_map := None |}.

(** ** Label matrices *)

(** A binary label matrix of shape [(length samples, n_labels)]. *)
Record label_matrix := {
  n_labels : nat;
  samples : list (list bool)
}.

Definition well_shaped (y : label_matrix) : Prop :=
  Forall (λ r, length r = n_labels y) (samples y).

Definition has_label (r : list bool) (i : nat) : Prop := r !! i = Some true.

(** Row of the LIL format ([label_data.rows]): the column indices of the
    non-zero entries, in increasing order. *)
Fixpoint lil_row_from (start : nat) (r : list bool) : list nat :=
  match r with
  | [] => []
  | b :: r' => (if b then [start] else []) ++ lil_row_from (S start) r'
  end.

Definition lil_row (r : list bool) : list nat := lil_row_from 0 r.

(** [get_matrix_in_format(y, 'lil')]: the shape and the rows. *)
Definition lil_rows (y : label_matrix) : list (list nat) :=
  lil_row <$> samples y.

(** ** The edge map builder *)

(** [[(a, b) for b in row for a in row if a <= b]], or with [a < b]. *)
Definition pairs_of (include_self : bool) (row : list nat) : list (nat * nat) :=
  b ← row; a ← row;
  if (if include_self then a <=? b else a <? b) then [(a, b)] else [].

(** Body of [for p in pairs]. *)
Definition add_pair (weighted : bool) (m : gmap (nat * nat) Q) (p : nat * nat)
  : gmap (nat * nat) Q :=
  match m !! p with
  | None => <[p := 1%Q]> m
  | Some w => if weighted then <[p := (w + 1)%Q]> m else m
  end.

(** Body of [for row in label_data.rows]. *)
Definition add_row (weighted include_self : bool) (m : gmap (nat * nat) Q)
    (row : list nat) : gmap (nat * nat) Q :=
  foldl (add_pair weighted) m (pairs_of include_self row).

(** Body of [for i in range(self.label_count)]. *)
Definition halve_self_edge (m : gmap (nat * nat) Q) (i : nat)
  : gmap (nat * nat) Q :=
  match m !! (i, i) with
  | Some w => <[(i, i) := (w / 2)%Q]> m
  | None => m
  end.

Definition build_edge_map (self : LabelCooccurenceClustererBase)
    (y : label_matrix) : gmap (nat * nat) Q :=
  let m := foldl (add_row (truthy (is_weighted self))
                          (truthy (include_self_edges self)))
                 ∅ (lil_rows y) in
  if truthy (normalize_self_edges self)
  then foldl halve_self_edge m (seq 0 (n_labels y))
  else m.

(** [generate_coocurence_adjacency_matrix]: stores [label_count] and
    [edge_map] on the instance and returns the edge map. *)
Definition generate_coocurence_adjacency_matrix
    (self : LabelCooccurenceClustererBase) (y : label_matrix)
  : LabelCooccurenceClustererBase * gmap (nat * nat) Q :=
  let m := build_edge_map self y in
  ({| is_weighted := is_weighted self;
      include_self_edges := include_self_edges self;
      normalize_self_edges := normalize_self_edges self;
      label_count := Some (n_labels y);
      edge_map := Some m |}, m).

(** An instance as [__init__] leaves it when given three booleans. *)
Definition clusterer (weighted include_self norm_self : bool)
  : LabelCooccurenceClustererBase :=
  {| is_weighted := PyBool weighted;
     include_self_edges := PyBool include_self;
     normalize_self_edges := PyBool norm_self;
     label_count := None;
     edge_map := None |}.

Definition example_y : label_matrix :=
  {| n_labels := 3;
     samples := [[true; false; true]; [false; true; true]; [true; true; false]] |}.

(** ** The co-occurrence graph *)

(** What [graph_tool.Graph] holds for this program: the direction flag, the
    number of vertices (vertices are [0 .. num_vertices - 1]) and the edges in
    the order they were added; an edge is identified by its index. *)
Record Graph := {
  directed : bool;
  num_vertices : nat;
  edges : list (nat * nat)
}.

(** [gt.Graph(directed=d)]. *)
Definition new_graph (d : bool) : Graph :=
  {| directed := d; num_vertices := 0; edges := [] |}.

(** [g.add_vertex(n)]. *)
Definition add_vertex (n : nat) (g : Graph) : Graph :=
  {| directed := directed g;
     num_vertices := num_vertices g + n;
     edges := edges g |}.

(** [g.add_edge(s, t)]: graph-tool's [add_missing=True] default creates the
    vertices up to [max s t] when they do not exist yet.  Returns the graph and
    the new edge. *)
Definition add_edge (s t : nat) (g : Graph) : Graph * nat :=
  ({| directed := directed g;
      num_vertices := num_vertices g `max` S (s `max` t);
      edges := edges g ++ [(s, t)] |},
   length (edges g)).

(** The interface of a graph builder ([self.graph_builder]): [transform] may
    raise, [builder_is_weighted] is its [is_weighted] attribute. *)
Record GraphBuilderBase := {
  transform : label_matrix → except (gmap (nat * nat) Q);
  builder_is_weighted : pyval
}.

(** Modelled from the spec: the class of [self.graph_builder] is not under
    src/.  The spec's data flow is "label matrix → AdjacencyBuilder → edge map
    → GraphAssembler", with the AdjacencyBuilder's contract the one of
    [generate_coocurence_adjacency_matrix]; so the builder's [transform] is that
    method of a constructed [LabelCooccurenceClustererBase]. *)
Definition cooccurence_builder (b : LabelCooccurenceClustererBase)
  : GraphBuilderBase :=
  {| transform := λ y, ret (generate_coocurence_adjacency_matrix b y).2;
     builder_is_weighted := is_weighted b |}.

(** Body of [for edge, weight in edge_map.items()]: the state is the graph and
    the edge property map [self.weights]. *)
Definition add_weighted_edge (gw : Graph * gmap nat Q)
    (item : (nat * nat) * Q) : Graph * gmap nat Q :=
  let '(g', e) := add_edge item.1.1 item.1.2 gw.1 in
  (g', <[e := item.2]> gw.2).

(** [build_graph_instance], from its reads ([self.graph_builder],
    [self.label_count], assigned by [fit_predict] before the call) to its
    writes ([self.coocurence_graph], [self.weights]). *)
Definition build_graph_instance (builder : GraphBuilderBase)
    (self_label_count : nat) (y : label_matrix)
  : except (Graph * gmap nat Q) :=
  (do em <- transform builder y;
   let g := add_vertex self_label_count (new_graph false) in
   ret (foldl add_weighted_edge (g, ∅) (map_to_list em)))%except.

(** ** The inference engine

    [graph_tool] is an external library.  Its types and the functions
    [predict_communities] and [fit_predict] call are an interface; the sampler
    is randomised, so the two calls that draw random numbers thread the
    generator's state.  [mcmc_equilibrate] hands back the states its callback
    was called with, in order, and the state it leaves behind; it receives the
    keyword arguments of [equlibrate_options] as a dictionary.  A call into
    the library that raises passes its exception on unchanged; such failures
    are the library's and have no counterpart here, so what is proved of an
    exception is that the code raises it when the library calls return. *)
Class GraphTool := {
  BlockState : Type;
  VertexMarginals : Type;
  EdgeMarginals : Type;
  float : Type;
  rng : Type;
  option_value : Type;
  flt : float → float → bool;
  fadd : float → float → float;
  fneg : float → float;
  mean : list float → float;
  minimize_blockmodel_dl :
    Graph → option (gmap nat Q) → bool → bool → rng → BlockState * rng;
  state_copy : BlockState → nat → BlockState;
  mcmc_equilibrate :
    BlockState → nat → nat → gmap string option_value → rng →
    list BlockState * BlockState * rng;
  collect_vertex_marginals :
    BlockState → option VertexMarginals → VertexMarginals;
  collect_edge_marginals :
    BlockState → option EdgeMarginals → EdgeMarginals;
  entropy : BlockState → float;
  get_nonempty_B : BlockState → nat;
  mf_entropy : Graph → option VertexMarginals → float;
  bethe_entropy : Graph → option EdgeMarginals → float;
  get_blocks : BlockState → list nat
}.

Section Clusterer.
Context `{GraphTool}.

(** The arguments of [GraphToolCooccurenceClusterer.__init__]. *)
Record GraphToolCooccurenceClusterer := {
  graph_builder : GraphBuilderBase;
  allow_overlap : bool;
  n_iters : nat;
  n_init_iters : nat;
  use_degree_corr : option bool;
  model_selection_criterium : string;
  verbose : bool;
  equlibrate_options : gmap string option_value
}.

(** The attributes [fit_predict] and [predict_communities] work on: the
    dictionaries keyed by the degree-correction flag, the graph and its
    weights, the lines printed so far and the generator. *)
Record fit_state := {
  coocurence_graph : Graph;
  weights : gmap nat Q;
  dls_ : gmap bool (list float);
  vm_ : gmap bool (option VertexMarginals);
  em_ : gmap bool (option EdgeMarginals);
  h_ : gmap bool (list nat);
  state_ : gmap bool BlockState;
  S_bethe_ : gmap bool float;
  S_mf_ : gmap bool float;
  L_ : gmap bool float;
  stdout : list (bool * float * float);
  gen : rng
}.

(** What [collect_marginals] has accumulated for one [deg_corr]. *)
Record marginals := {
  m_vm : option VertexMarginals;
  m_em : option EdgeMarginals;
  m_dls : list float;
  m_h : list nat
}.

(** [obj.h_[deg_corr][B] += 1] on an array: out of range raises. *)
Definition bump (h : list nat) (B : nat) : except (list nat) :=
  match h !! B with
  | Some c => ret (<[B := S c]> h)
  | None => raise (IndexError B)
  end.

(** [collect_marginals(s, deg_corr, obj)]. *)
Definition collect_marginals (acc : marginals) (s : BlockState)
  : except marginals :=
  (do h <- bump (m_h acc) (get_nonempty_B s);
   ret {| m_vm := Some (collect_vertex_marginals s (m_vm acc));
          m_em := Some (collect_edge_marginals s (m_em acc));
          m_dls := m_dls acc ++ [entropy s];
          m_h := h |})%except.

Fixpoint run_callback (acc : marginals) (sweeps : list BlockState)
  : except marginals :=
  match sweeps with
  | [] => ret acc
  | s :: rest => (do acc' <- collect_marginals acc s; run_callback acc' rest)%except
  end.

(** The call [gt.mcmc_equilibrate(state, force_niter=..., mcmc_args=...,
    callback=..., **self.equlibrate_options)] names three keywords itself: a
    dictionary that holds one of them makes the call raise before the library
    runs.  The interpreter's message goes on to name the keyword; the model
    keeps the part before it.  A keyword the library does not know is
    refused by the library, not by this call. *)
Definition keyword_clash {V} (opts : gmap string V) : bool :=
  existsb (λ k, bool_decide (is_Some (opts !! k)))
          ["force_niter"; "mcmc_args"; "callback"]%string.

(** [predict_communities(deg_corr)]. *)
Definition predict_communities (self : GraphToolCooccurenceClusterer)
    (deg_corr : bool) (st : fit_state) : except fit_state :=
  let g := coocurence_graph st in
  let ec := if truthy (builder_is_weighted (graph_builder self))
            then Some (weights st) else None in
  let '(state0, r1) :=
    minimize_blockmodel_dl g ec (allow_overlap self) deg_corr (gen st) in
  let state1 := state_copy state0 (num_vertices g) in
  let acc0 := {| m_vm := None; m_em := None; m_dls := [];
                 m_h := replicate (num_vertices g + 1) 0 |} in
  if keyword_clash (equlibrate_options self) then
    raise (TypeError
      "mcmc_equilibrate() got multiple values for keyword argument")
  else
  let '(sweeps, state2, r2) :=
    mcmc_equilibrate state1 (n_iters self) (n_init_iters self)
                     (equlibrate_options self) r1 in
  (do acc <- run_callback acc0 sweeps;
   let S_mf := mf_entropy g (m_vm acc) in
   let S_bethe := bethe_entropy g (m_em acc) in
   let L := fneg (mean (m_dls acc)) in
   ret {| coocurence_graph := g;
          weights := weights st;
          dls_ := <[deg_corr := m_dls acc]> (dls_ st);
          vm_ := <[deg_corr := m_vm acc]> (vm_ st);
          em_ := <[deg_corr := m_em acc]> (em_ st);
          h_ := <[deg_corr := m_h acc]> (h_ st);
          state_ := <[deg_corr := state2]> (state_ st);
          S_bethe_ := <[deg_corr := S_bethe]> (S_bethe_ st);
          S_mf_ := <[deg_corr := S_mf]> (S_mf_ st);
          L_ := <[deg_corr := L]> (L_ st);
          stdout := stdout st ++
            (if verbose self
             then [(deg_corr, fadd L S_mf, fadd L S_bethe)] else []);
          gen := r2 |})%except.

(** A dictionary read [d[k]] that the code has just written. *)
Definition getitem {V} (d : gmap bool V) (k : bool) : except V :=
  match d !! k with
  | Some v => ret v
  | None => raise (KeyError (PyBool k))
  end.

(** The first half of [fit_predict]: which fitted model is used. *)
Definition select_model (self : GraphToolCooccurenceClusterer)
    (st : fit_state) : except (bool * fit_state) :=
  match use_degree_corr self with
  | None =>
      (do st1 <- predict_communities self true st;
       do st2 <- predict_communities self false st1;
       let decision_criterion :=
         if bool_decide (model_selection_criterium self = "bethe")
         then S_bethe_ st2 else S_mf_ st2 in
       do c_true <- getitem decision_criterion true;
       do c_false <- getitem decision_criterion false;
       ret (flt c_true c_false, st2))%except
  | Some deg_corr =>
      (do st1 <- predict_communities self deg_corr st;
       ret (deg_corr, st1))%except
  end.

(** [self.label_sets[block_id].append(label_id)]. *)
Definition append_label (label_sets : gmap nat (list nat))
    (label_id block_id : nat) : except (gmap nat (list nat)) :=
  match label_sets !! block_id with
  | Some l => ret (<[block_id := l ++ [label_id]]> label_sets)
  | None => raise (KeyError (PyInt (Z.of_nat block_id)))
  end.

(** [for label_id, block_id in enumerate(found_blocks)], from [label_id]. *)
Fixpoint assign_labels (label_sets : gmap nat (list nat)) (label_id : nat)
    (found_blocks : list nat) : except (gmap nat (list nat)) :=
  match found_blocks with
  | [] => ret label_sets
  | block_id :: rest =>
      (do ls <- append_label label_sets label_id block_id;
       assign_labels ls (S label_id) rest)%except
  end.

(** [{b: [] for b in range(n)}]. *)
Definition empty_label_sets (n : nat) : gmap nat (list nat) :=
  list_to_map ((λ b, (b, [])) <$> seq 0 n).

(** [label_sets.values()] of a dictionary whose keys are [range(n)], inserted
    in that order and never deleted. *)
Definition values (n : nat) (label_sets : gmap nat (list nat))
  : list (list nat) :=
  omap (λ b, label_sets !! b) (seq 0 n).

(** Lines 145 to 151 of [fit_predict]: the dictionary, the grouping loop and
    the lists the filter keeps, in order (the elements of the list on
    Python 2, what the iterator yields on Python 3). *)
Definition label_sets_of (found_blocks : list nat) : except (list (list nat)) :=
  let n := length found_blocks in
  (do ls <- assign_labels (empty_label_sets n) 0 found_blocks;
   ret (List.filter (λ x, 0 <? length x) (values n ls)))%except.

Definition initial_fit_state (g : Graph) (w : gmap nat Q) (r : rng)
  : fit_state :=
  {| coocurence_graph := g; weights := w;
     dls_ := ∅; vm_ := ∅; em_ := ∅; h_ := ∅; state_ := ∅;
     S_bethe_ := ∅; S_mf_ := ∅; L_ := ∅; stdout := []; gen := r |}.

(** [fit_predict(X, y)] on the interpreter [py]; [X] is not used.
    [self.model_count = len(self.label_sets)] takes the length of what
    [filter] returned.  Returns the clusters ([self.label_sets], whose number
    is [self.model_count]) and the attributes left on the instance. *)
Definition fit_predict (py : python) (self : GraphToolCooccurenceClusterer)
    (y : label_matrix) (r : rng) : except (list (list nat) * fit_state) :=
  (do gw <- build_graph_instance (graph_builder self) (n_labels y) y;
   do sel <- select_model self (initial_fit_state gw.1 gw.2 r);
   do state_to_use <- getitem (state_ sel.2) sel.1;
   do label_sets <- label_sets_of (get_blocks state_to_use);
   do model_count <- len_of_filter py label_sets;
   ret (label_sets, sel.2))%except.

End Clusterer.

(** ** Vocabulary of the statements *)

(** The pair policy of the two comprehensions. *)
Definition pair_policy (include_self : bool) (a b : nat) : Prop :=
  if include_self then a ≤ b else a < b.

#[global] Instance pair_policy_dec i a b : Decision (pair_policy i a b).
Proof. destruct i; simpl; apply _. Defined.

#[global] Instance has_label_dec r i : Decision (has_label r i).
Proof. unfold has_label. apply _. Defined.

(** Number of sample rows that carry both labels. *)
Definition cooccurrences (y : label_matrix) (a b : nat) : nat :=
  length (filter (λ r, has_label r a ∧ has_label r b) (samples y)).

(** Number of sample rows in which label [i] occurs. *)
Definition occurrences (y : label_matrix) (i : nat) : nat :=
  length (filter (λ r, has_label r i) (samples y)).

(** What one visit of a pair does to its entry. *)
Definition visit (weighted : bool) (o : option Q) : option Q :=
  match o with
  | None => Some 1%Q
  | Some w => Some (if weighted then (w + 1)%Q else w)
  end.

(** The value an entry holds after [k > 0] visits. *)
Definition count_weight (weighted : bool) (k : nat) : Q :=
  if weighted then inject_Z (Z.of_nat k) else 1%Q.

(** The weight stored under [(a, b)] when the two labels co-occur [k] times. *)
Definition stored_weight (weighted norm_self : bool) (n a b k : nat) : Q :=
  if decide (norm_self = true ∧ a = b ∧ a < n)
  then (count_weight weighted k / 2)%Q else count_weight weighted k.

(** The graph and the weights after the loop over the items of the edge map. *)
Definition assemble (n : nat) (items : list ((nat * nat) * Q)) : Graph * gmap nat Q :=
  foldl add_weighted_edge (add_vertex n (new_graph false), ∅) items.


(** The labels [label_id + j] whose block [blocks[j]] is [b], in order. *)
Fixpoint labels_of_block (b label_id : nat) (blocks : list nat) : list nat :=
  match blocks with
  | [] => []
  | x :: rest =>
      (if decide (x = b) then [label_id] else [])
      ++ labels_of_block b (S label_id) rest
  end.

Section Contract.
Context `{GraphTool}.

(** The state [predict_communities] stores in [state_[deg_corr]]: the
    minimised state, copied with [B] set to the number of vertices, after
    equilibration. *)
Definition fitted (self : GraphToolCooccurenceClusterer) (deg_corr : bool)
    (st : fit_state) : BlockState :=
  let g := coocurence_graph st in
  let ec := if truthy (builder_is_weighted (graph_builder self))
            then Some (weights st) else None in
  let sr := minimize_blockmodel_dl g ec (allow_overlap self) deg_corr (gen st) in
  (mcmc_equilibrate (state_copy sr.1 (num_vertices g)) (n_iters self)
                    (n_init_iters self) (equlibrate_options self) sr.2).1.2.

(** What the program relies on from the library.  A state copied with
    [B = N] has at most [N] non-empty blocks, during equilibration too. *)
Definition nonempty_B_bounded : Prop :=
  ∀ g ec overlap deg_corr r niter ninit opts r',
    Forall (λ s, get_nonempty_B s ≤ num_vertices g)
      (mcmc_equilibrate
         (state_copy (minimize_blockmodel_dl g ec overlap deg_corr r).1
                     (num_vertices g))
         niter ninit opts r').1.1.

(** Without overlap, [get_blocks] has one entry per vertex, a block among
    the [B = N] blocks of the state. *)
Definition blocks_cover_vertices : Prop :=
  ∀ g ec deg_corr r niter ninit opts r',
    let blocks :=
      get_blocks
        (mcmc_equilibrate
           (state_copy (minimize_blockmodel_dl g ec false deg_corr r).1
                       (num_vertices g))
           niter ninit opts r').1.2 in
    length blocks = num_vertices g
    ∧ Forall (λ b, b < num_vertices g) blocks.

(** The dictionary [fit_predict] reads the decision criterion from. *)
Definition decision_criterion (self : GraphToolCooccurenceClusterer)
    (st : fit_state) : gmap bool float :=
  if bool_decide (model_selection_criterium self = "bethe")
  then S_bethe_ st else S_mf_ st.

End Contract.

(** A deterministic stand-in for the library, to run the definitions: the
    degree-corrected fit puts every vertex in a block of its own, the plain
    fit puts all of them in block 0; the marginals count non-empty blocks. *)
Definition count_blocks (s : list nat) : nat := length (remove_dups s).

#[local] Instance stand_in : GraphTool := {|
  BlockState := list nat;
  VertexMarginals := nat;
  EdgeMarginals := nat;
  float := Z;
  rng := nat;
  option_value := unit;
  flt := Z.ltb;
  fadd := Z.add;
  fneg := Z.opp;
  mean := λ l, (foldr Z.add 0 l `div` Z.of_nat (length l))%Z;
  minimize_blockmodel_dl := λ g _ _ deg_corr r,
    (if deg_corr then seq 0 (num_vertices g)
     else replicate (num_vertices g) 0, S r);
  state_copy := λ s _, s;
  mcmc_equilibrate := λ s niter _ _ r, (replicate niter s, s, S r);
  collect_vertex_marginals := λ s o, default 0 o + count_blocks s;
  collect_edge_marginals := λ s o, default 0 o + count_blocks s;
  entropy := λ s, Z.of_nat (count_blocks s);
  get_nonempty_B := count_blocks;
  mf_entropy := λ _ o, Z.of_nat (default 0%nat o);
  bethe_entropy := λ _ o, (- Z.of_nat (default 0%nat o))%Z;
  get_blocks := λ s, s
|}.

Definition example_clusterer (use_degree_corr : option bool)
    (criterium : string) : GraphToolCooccurenceClusterer :=
  {| graph_builder := cooccurence_builder (clusterer true false false);
     allow_overlap := false;
     n_iters := 2;
     n_init_iters := 1;
     use_degree_corr := use_degree_corr;
     model_selection_criterium := criterium;
     verbose := true;
     equlibrate_options := ∅ |}.

(** The label matrix with one more sample row. *)
Definition add_sample (y : label_matrix) (r : list bool) : label_matrix :=
  {| n_labels := n_labels y; samples := samples y ++ [r] |}.

(** A builder whose [transform] returns the same edge map for every matrix. *)
Definition constant_builder (em : gmap (nat * nat) Q) : GraphBuilderBase :=
  {| transform := λ _, ret em; builder_is_weighted := PyBool true |}.

Section Bookkeeping.
Context `{GraphTool}.

(** The states [mcmc_equilibrate] hands to the callback during
    [predict_communities(deg_corr)], in order. *)
Definition sweeps_of (self : GraphToolCooccurenceClusterer) (deg_corr : bool)
    (st : fit_state) : list BlockState :=
  let g := coocurence_graph st in
  let ec := if truthy (builder_is_weighted (graph_builder self))
            then Some (weights st) else None in
  let sr := minimize_blockmodel_dl g ec (allow_overlap self) deg_corr (gen st) in
  (mcmc_equilibrate (state_copy sr.1 (num_vertices g)) (n_iters self)
                    (n_init_iters self) (equlibrate_options self) sr.2).1.1.

(** Number of callback states with [B] non-empty blocks. *)
Definition sweeps_with (B : nat) (sweeps : list BlockState) : nat :=
  length (filter (λ s, get_nonempty_B s = B) sweeps).

(** The marginals the callback has collected after the states [sweeps]. *)
Definition collected_vm (sweeps : list BlockState) : option VertexMarginals :=
  foldl (λ o s, Some (collect_vertex_marginals s o)) None sweeps.

Definition collected_em (sweeps : list BlockState) : option EdgeMarginals :=
  foldl (λ o s, Some (collect_edge_marginals s o)) None sweeps.

(** An instance that differs in [model_selection_criterium] only. *)
Definition with_criterium (self : GraphToolCooccurenceClusterer)
    (criterium : string) : GraphToolCooccurenceClusterer :=
  {| graph_builder := graph_builder self;
     allow_overlap := allow_overlap self;
     n_iters := n_iters self;
     n_init_iters := n_init_iters self;
     use_degree_corr := use_degree_corr self;
     model_selection_criterium := criterium;
     verbose := verbose self;
     equlibrate_options := equlibrate_options self |}.

End Bookkeeping.

(** Lines 145 to 148 of [fit_predict]: the dictionary and the grouping
    loop. *)
Definition group_labels (found_blocks : list nat)
  : except (gmap nat (list nat)) :=
  assign_labels (empty_label_sets (length found_blocks)) 0 found_blocks.

(** A stand-in whose fits report given numbers: the fit for [deg_corr] has
    mean-field entropy [S_mf deg_corr], Bethe entropy [S_bethe deg_corr] and
    description length [- L deg_corr] at every sweep.  The degree-corrected
    fit puts every vertex in a block of its own, the plain fit puts all of
    them in block 0, so the clusters show which fit was used. *)
Definition scripted (S_mf S_bethe L : bool → Z) : GraphTool := {|
  BlockState := bool * list nat;
  VertexMarginals := bool;
  EdgeMarginals := bool;
  float := Z;
  rng := nat;
  option_value := unit;
  flt := Z.ltb;
  fadd := Z.add;
  fneg := Z.opp;
  mean := λ l, (foldr Z.add 0 l `div` Z.of_nat (length l))%Z;
  minimize_blockmodel_dl := λ g _ _ deg_corr r,
    ((deg_corr, if deg_corr then seq 0 (num_vertices g)
                else replicate (num_vertices g) 0), S r);
  state_copy := λ s _, s;
  mcmc_equilibrate := λ s niter _ _ r, (replicate niter s, s, S r);
  collect_vertex_marginals := λ s _, s.1;
  collect_edge_marginals := λ s _, s.1;
  entropy := λ s, (- L s.1)%Z;
  get_nonempty_B := λ s, count_blocks s.2;
  mf_entropy := λ _ o, match o with Some d => S_mf d | None => 0%Z end;
  bethe_entropy := λ _ o, match o with Some d => S_bethe d | None => 0%Z end;
  get_blocks := λ s, s.2
|}.

(** The instance with [use_degree_corr=None], the given criterium and
    [verbose], on such a stand-in. *)
Definition scripted_clusterer (S_mf S_bethe L : bool → Z) (criterium : string)
  : @GraphToolCooccurenceClusterer (scripted S_mf S_bethe L) :=
  @Build_GraphToolCooccurenceClusterer (scripted S_mf S_bethe L)
    (cooccurence_builder (clusterer true false false))
    false 2 1 None criterium true ∅.

(** [fit_predict] on such a stand-in, for the example matrix: the clusters
    returned and the lines printed, which show the model evidence
    [L + S_mf] and [L + S_bethe] of the two fits. *)
Definition evidence_run (criterium : string) (S_mf S_bethe L : bool → Z)
  : except (list (list nat) * list (bool * Z * Z)) :=
  (do res <- @fit_predict (scripted S_mf S_bethe L) Python2
               (scripted_clusterer S_mf S_bethe L criterium) example_y 0%nat;
   ret (res.1, @stdout (scripted S_mf S_bethe L) res.2))%except.

(** A stand-in that breaks the library's contract: it reports one non-empty
    block more than there are vertices. *)
Definition crowded : GraphTool := {|
  BlockState := list nat;
  VertexMarginals := nat;
  EdgeMarginals := nat;
  float := Z;
  rng := nat;
  option_value := unit;
  flt := Z.ltb;
  fadd := Z.add;
  fneg := Z.opp;
  mean := λ l, (foldr Z.add 0 l `div` Z.of_nat (length l))%Z;
  minimize_blockmodel_dl := λ g _ _ _ r, (seq 0 (num_vertices g), S r);
  state_copy := λ s _, s;
  mcmc_equilibrate := λ s niter _ _ r, (replicate niter s, s, S r);
  collect_vertex_marginals := λ s o, default 0 o + length s;
  collect_edge_marginals := λ s o, default 0 o + length s;
  entropy := λ s, Z.of_nat (length s);
  get_nonempty_B := λ s, S (length s);
  mf_entropy := λ _ o, Z.of_nat (default 0%nat o);
  bethe_entropy := λ _ o, (- Z.of_nat (default 0%nat o))%Z;
  get_blocks := λ s, s
|}.

Definition crowded_clusterer : @GraphToolCooccurenceClusterer crowded :=
  @Build_GraphToolCooccurenceClusterer crowded
    (cooccurence_builder (clusterer true false false))
    false 2 1 (Some true) "mean_field" false ∅.

(** * Properties of the edge map builder *)

Section Rows.

Lemma elem_of_lil_row_from start r i :
  i ∈ lil_row_from start r ↔ ∃ j, i = start + j ∧ r !! j = Some true.
Proof.
  revert start. induction r as [|b r IH]; intros start; simpl.
  - split; [by intros ?%elem_of_nil | by intros (j & _ & ?)].
  - rewrite elem_of_app, IH. split.
    + intros [Hb | (j & -> & Hj)].
      * destruct b; [|by apply elem_of_nil in Hb].
        apply list_elem_of_singleton in Hb as ->. exists 0. split; [lia | done].
      * exists (S j). split; [lia | done].
    + intros ([|j] & -> & Hj); simpl in Hj.
      * left. injection Hj as ->. rewrite Nat.add_0_r. by apply list_elem_of_singleton.
      * right. exists j. split; [lia | done].
Qed.

Lemma elem_of_lil_row r i : i ∈ lil_row r ↔ has_label r i.
Proof.
  unfold lil_row, has_label. rewrite elem_of_lil_row_from.
  split; [by intros (j & -> & ?) | by exists i].
Qed.

Lemma NoDup_lil_row_from start r : NoDup (lil_row_from start r).
Proof.
  revert start. induction r as [|b r IH]; intros start; simpl; [constructor|].
  destruct b; simpl; [|apply IH].
  constructor; [|apply IH].
  rewrite elem_of_lil_row_from. intros (j & ? & _). lia.
Qed.

Lemma NoDup_lil_row r : NoDup (lil_row r).
Proof. apply NoDup_lil_row_from. Qed.

Lemma has_label_lt r i : has_label r i → i < length r.
Proof. unfold has_label. intros Hi. by eapply lookup_lt_Some. Qed.

End Rows.

Section Pairs.

Lemma policy_test (i : bool) (a b : nat) :
  (if i then a <=? b else a <? b) = bool_decide (pair_policy i a b).
Proof.
  destruct i; simpl.
  - destruct (Nat.leb_spec a b); symmetry;
      [apply bool_decide_eq_true_2 | apply bool_decide_eq_false_2]; lia.
  - destruct (Nat.ltb_spec a b); symmetry;
      [apply bool_decide_eq_true_2 | apply bool_decide_eq_false_2]; lia.
Qed.

Lemma elem_of_pairs_of i row a b :
  (a, b) ∈ pairs_of i row ↔ a ∈ row ∧ b ∈ row ∧ pair_policy i a b.
Proof.
  unfold pairs_of. rewrite list_elem_of_bind. split.
  - intros (b' & Hin & Hb'). apply list_elem_of_bind in Hin as (a' & Hin & Ha').
    rewrite policy_test in Hin. case_bool_decide; [|by apply elem_of_nil in Hin].
    apply list_elem_of_singleton in Hin. by simplify_eq.
  - intros (Ha & Hb & Hp). exists b. split; [|done].
    apply list_elem_of_bind. exists a. split; [|done].
    rewrite policy_test, bool_decide_eq_true_2 by done.
    by apply list_elem_of_singleton.
Qed.

Lemma NoDup_pairs_of i row : NoDup row → NoDup (pairs_of i row).
Proof.
  intros Hnd. unfold pairs_of. apply NoDup_bind; [| |done].
  - intros b1 b2 [a b] _ _ H1 H2.
    apply list_elem_of_bind in H1 as (a1 & H1 & _), H2 as (a2 & H2 & _).
    destruct (if i then a1 <=? b1 else a1 <? b1); [|by apply elem_of_nil in H1].
    destruct (if i then a2 <=? b2 else a2 <? b2); [|by apply elem_of_nil in H2].
    apply list_elem_of_singleton in H1, H2. congruence.
  - intros b _. apply NoDup_bind; [| |done].
    + intros a1 a2 [a b'] _ _ H1 H2.
      destruct (if i then a1 <=? b else a1 <? b); [|by apply elem_of_nil in H1].
      destruct (if i then a2 <=? b else a2 <? b); [|by apply elem_of_nil in H2].
      apply list_elem_of_singleton in H1, H2. congruence.
    + intros a _. destruct (if i then a <=? b else a <? b);
        [apply NoDup_singleton | constructor].
Qed.

End Pairs.

Section EdgeMap.

Implicit Types (m : gmap (nat * nat) Q) (p : nat * nat).

Lemma add_pair_lookup w m p q :
  add_pair w m p !! q = if decide (q = p) then visit w (m !! p) else m !! q.
Proof.
  unfold add_pair, visit. case_decide as Hq.
  - subst q. destruct (m !! p) as [x|] eqn:Hp.
    + destruct w; [apply lookup_insert_eq | done].
    + apply lookup_insert_eq.
  - destruct (m !! p) as [x|].
    + destruct w; [by apply lookup_insert_ne | done].
    + by apply lookup_insert_ne.
Qed.

(** A list of distinct pairs visits each of its pairs once. *)
Lemma foldl_add_pair_lookup w ps :
  NoDup ps → ∀ m q,
  foldl (add_pair w) m ps !! q =
  if decide (q ∈ ps) then visit w (m !! q) else m !! q.
Proof.
  induction 1 as [|p ps Hp Hnd IH]; intros m q; cbn [foldl].
  - case_decide as Hq; [by apply elem_of_nil in Hq | done].
  - rewrite IH, !add_pair_lookup.
    destruct (decide (q = p)) as [->|Hne].
    + rewrite decide_False by done. by rewrite decide_True by left.
    + case_decide as Hin.
      * by rewrite decide_True by (by right).
      * rewrite decide_False; [done|]. by intros [?|?]%elem_of_cons.
Qed.

Lemma add_row_lookup w i m (r : list bool) a b :
  add_row w i m (lil_row r) !! (a, b) =
  if decide (pair_policy i a b ∧ has_label r a ∧ has_label r b)
  then visit w (m !! (a, b)) else m !! (a, b).
Proof.
  unfold add_row.
  rewrite foldl_add_pair_lookup by apply NoDup_pairs_of, NoDup_lil_row.
  apply decide_ext. rewrite elem_of_pairs_of, !elem_of_lil_row. tauto.
Qed.

(** The rows, one after the other: the entry of [(a, b)] is visited once per
    row that carries both labels. *)
Lemma foldl_add_row_lookup w i rows : ∀ m a b,
  foldl (add_row w i) m (lil_row <$> rows) !! (a, b) =
  if decide (pair_policy i a b)
  then Nat.iter (length (filter (λ r, has_label r a ∧ has_label r b) rows))
                (visit w) (m !! (a, b))
  else m !! (a, b).
Proof.
  induction rows as [|r rows IH]; intros m a b; cbn [foldl fmap list_fmap].
  - by case_decide.
  - rewrite IH, add_row_lookup. case_decide as Hp; [|by rewrite decide_False by tauto].
    rewrite filter_cons. destruct (decide (has_label r a ∧ has_label r b)) as [Hr|Hr].
    + rewrite decide_True by tauto. cbn [length]. by rewrite Nat.iter_succ_r.
    + by rewrite decide_False by tauto.
Qed.

Lemma Qplus_inject_one (k : nat) :
  (inject_Z (Z.of_nat (S k)) + 1)%Q = inject_Z (Z.of_nat (S (S k))).
Proof.
  unfold Qplus, inject_Z. simpl Qnum. simpl Qden.
  f_equal. lia.
Qed.

Lemma iter_visit w k :
  Nat.iter (S k) (visit w) None = Some (count_weight w (S k)).
Proof.
  induction k as [|k IH].
  - by destruct w.
  - rewrite Nat.iter_succ, IH. unfold count_weight. destruct w; simpl visit; [|done].
    f_equal. apply Qplus_inject_one.
Qed.

(** The edge map at the end of the loop over the rows. *)
Lemma counted_lookup w i (y : label_matrix) a b :
  foldl (add_row w i) ∅ (lil_rows y) !! (a, b) =
  if decide (pair_policy i a b ∧ cooccurrences y a b ≠ 0)
  then Some (count_weight w (cooccurrences y a b)) else None.
Proof.
  unfold lil_rows, cooccurrences. rewrite foldl_add_row_lookup, lookup_empty.
  destruct (decide (pair_policy i a b)) as [Hp|Hp];
    [|by rewrite decide_False by tauto].
  destruct (length _) as [|k] eqn:Hk.
  - by rewrite decide_False by tauto.
  - rewrite decide_True by (split; [done | lia]). apply iter_visit.
Qed.

Lemma halve_self_edge_lookup m i a b :
  halve_self_edge m i !! (a, b) =
  if decide (a = i ∧ b = i) then (λ w, w / 2)%Q <$> m !! (a, b) else m !! (a, b).
Proof.
  unfold halve_self_edge. case_decide as Hab.
  - destruct Hab as [-> ->]. destruct (m !! (i, i)) as [x|] eqn:Hx.
    + by rewrite lookup_insert_eq.
    + by rewrite Hx.
  - destruct (m !! (i, i)) as [x|]; [|done].
    apply lookup_insert_ne. naive_solver.
Qed.

(** The normalisation loop halves the self-edges of [range(n)], once each. *)
Lemma foldl_halve_lookup n : ∀ m a b,
  foldl halve_self_edge m (seq 0 n) !! (a, b) =
  if decide (a = b ∧ a < n) then (λ w, w / 2)%Q <$> m !! (a, b) else m !! (a, b).
Proof.
  induction n as [|n IH]; intros m a b.
  - simpl. by rewrite decide_False by lia.
  - rewrite seq_S, foldl_app. simpl. rewrite halve_self_edge_lookup, IH.
    destruct (decide (a = n ∧ b = n)) as [[-> ->]|Hn].
    + rewrite decide_False by lia. by rewrite decide_True by lia.
    + destruct (decide (a = b ∧ a < n)) as [[-> ?]|?].
      * by rewrite decide_True by lia.
      * by rewrite decide_False by lia.
Qed.

(** Every entry of the edge map, for every instance and every matrix. *)
Lemma build_edge_map_lookup self y a b :
  build_edge_map self y !! (a, b) =
  if decide (pair_policy (truthy (include_self_edges self)) a b
             ∧ cooccurrences y a b ≠ 0)
  then Some (stored_weight (truthy (is_weighted self))
                           (truthy (normalize_self_edges self))
                           (n_labels y) a b (cooccurrences y a b))
  else None.
Proof.
  unfold build_edge_map, stored_weight.
  destruct (truthy (normalize_self_edges self)).
  - rewrite foldl_halve_lookup, counted_lookup.
    destruct (decide (a = b ∧ a < n_labels y)) as [Hab|Hab].
    + rewrite (decide_True (P := true = true ∧ _)) by tauto. by case_decide.
    + rewrite (decide_False (P := true = true ∧ _)) by tauto. done.
  - rewrite counted_lookup.
    by rewrite (decide_False (P := false = true ∧ _)) by (by intros [? _]).
Qed.

Lemma cooccurrences_diag y i : cooccurrences y i i = occurrences y i.
Proof.
  unfold cooccurrences, occurrences. f_equal.
  apply list_filter_iff. tauto.
Qed.

Lemma cooccurrences_pos y a b :
  cooccurrences y a b ≠ 0 ↔
  ∃ r, r ∈ samples y ∧ has_label r a ∧ has_label r b.
Proof.
  unfold cooccurrences. rewrite length_zero_iff_nil. split.
  - intros Hne. destruct (filter _ _) as [|r l] eqn:Hf; [done|].
    assert (r ∈ filter (λ r, has_label r a ∧ has_label r b) (samples y)) as Hr
      by (rewrite Hf; left).
    apply list_elem_of_filter in Hr. exists r. tauto.
  - intros (r & Hin & Hr) Hnil.
    assert (r ∈ filter (λ r, has_label r a ∧ has_label r b) (samples y)) as Hf
      by by apply list_elem_of_filter.
    rewrite Hnil in Hf. by apply elem_of_nil in Hf.
Qed.

Lemma cooccurrences_lt y a b :
  well_shaped y → cooccurrences y a b ≠ 0 → a < n_labels y ∧ b < n_labels y.
Proof.
  intros Hy (r & Hin & Ha & Hb)%cooccurrences_pos.
  unfold well_shaped in Hy. rewrite Forall_forall in Hy.
  rewrite <- (Hy r Hin). split; by apply has_label_lt.
Qed.

End EdgeMap.

(** * The claims about the edge map *)

Section EdgeMapClaims.

Lemma count_weight_pos w k : k ≠ 0 → (0 < count_weight w k)%Q.
Proof.
  intros Hk. unfold count_weight. destruct w; [|done].
  unfold Qlt, inject_Z. simpl. lia.
Qed.

Lemma stored_weight_pos w n l a b k : k ≠ 0 → (0 < stored_weight w n l a b k)%Q.
Proof.
  intros Hk. unfold stored_weight. case_decide.
  - apply Qlt_shift_div_l; [done|]. rewrite Qmult_0_l. by apply count_weight_pos.
  - by apply count_weight_pos.
Qed.

(** C4.  With [weighted=True] and [include_self_edges=True], the edge map
    holds under [(i, i)] the number of sample rows in which label [i] occurs,
    or half that number when [normalize_self_edges=True]; a label that occurs
    in no row has no entry. *)
Theorem self_edge_weight (y : label_matrix) (i : nat) (norm : bool) :
  well_shaped y →
  let m := (generate_coocurence_adjacency_matrix (clusterer true true norm) y).2 in
  let k := inject_Z (Z.of_nat (occurrences y i)) in
  (occurrences y i ≠ 0 → m !! (i, i) = Some (if norm then k / 2 else k)%Q)
  ∧ (occurrences y i = 0 → m !! (i, i) = None).
Proof.
  intros Hy m k. subst m k. cbn [generate_coocurence_adjacency_matrix snd].
  rewrite build_edge_map_lookup, cooccurrences_diag. cbn.
  split; intros Hk.
  - rewrite decide_True by (split; [lia | done]). f_equal.
    unfold stored_weight, count_weight.
    assert (i < n_labels y) as Hi.
    { rewrite <- cooccurrences_diag in Hk. by apply cooccurrences_lt in Hk as [? _]. }
    destruct norm.
    + by rewrite decide_True by done.
    + by rewrite decide_False by (by intros [? _]).
  - by rewrite decide_False by (by intros [_ ?]).
Qed.

Lemma self_edge_weight_witness :
  (generate_coocurence_adjacency_matrix (clusterer true true true) example_y).2
    !! (1, 1) = Some (inject_Z 2 / 2)%Q.
Proof.
  assert (well_shaped example_y) as Hy by (repeat constructor).
  destruct (self_edge_weight example_y 1 true Hy) as [Hpos _].
  apply Hpos. vm_compute. discriminate.
Defined.

(** C7.  Every key [(a, b)] of the edge map respects the pair policy:
    [a <= b] when self-edges are included, [a < b] (so never a self-edge)
    when they are not. *)
Theorem keys_respect_policy (w i n : bool) (y : label_matrix) (a b : nat) :
  is_Some ((generate_coocurence_adjacency_matrix (clusterer w i n) y).2 !! (a, b)) →
  if i then a ≤ b else a < b.
Proof.
  cbn [generate_coocurence_adjacency_matrix snd].
  rewrite build_edge_map_lookup. cbn.
  case_decide as Hk; [by destruct Hk | by intros [? ?]].
Qed.

Lemma keys_respect_policy_witness : 1 < 2.
Proof.
  apply (keys_respect_policy true false false example_y 1 2).
  vm_compute. eauto.
Defined.

(** C10.  A pair is a key of the edge map exactly when it satisfies the pair
    policy and some sample row carries both labels; every stored weight is
    strictly positive. *)
Theorem key_iff_cooccur (w i n : bool) (y : label_matrix) :
  let m := (generate_coocurence_adjacency_matrix (clusterer w i n) y).2 in
  (∀ a b, is_Some (m !! (a, b)) ↔
     (if i then a ≤ b else a < b)
     ∧ ∃ r, r ∈ samples y ∧ has_label r a ∧ has_label r b)
  ∧ (∀ k v, m !! k = Some v → (0 < v)%Q).
Proof.
  cbn [generate_coocurence_adjacency_matrix snd]. split.
  - intros a b. rewrite build_edge_map_lookup, <- cooccurrences_pos. cbn.
    case_decide as Hk.
    + split; [intros _ | by eauto]. by destruct i.
    + split; [by intros [? ?] | intros ?; exfalso; apply Hk; by destruct i].
  - intros [a b] v. rewrite build_edge_map_lookup. cbn.
    case_decide as Hk; [|done]. intros [= <-].
    apply stored_weight_pos. by destruct Hk.
Qed.

Lemma key_iff_cooccur_witness :
  is_Some ((generate_coocurence_adjacency_matrix
              (clusterer true false false) example_y).2 !! (1, 2))
  ↔ 1 < 2 ∧ ∃ r, r ∈ samples example_y ∧ has_label r 1 ∧ has_label r 2.
Proof. apply (key_iff_cooccur true false false example_y). Defined.

(** C5, as stated, fails: with [weighted=False], [include_self_edges=True]
    and [normalize_self_edges=True] the one-sample matrix [[1]] yields the
    entry [(0, 0) : 0.5]. *)
Lemma unweighted_weight_not_one :
  ∃ k v,
    (generate_coocurence_adjacency_matrix
       (clusterer false true true) {| n_labels := 1; samples := [[true]] |}).2
      !! k = Some v
    ∧ ¬ (v == 1)%Q.
Proof. exists (0, 0), (1 # 2)%Q. split; [by vm_compute | by intros ?]. Qed.

(** C5, amended.  With [weighted=False] every stored weight is 1.0, whatever
    the number of samples that exhibit the co-occurrence, except that with
    [normalize_self_edges=True] the self-edges hold 0.5. *)
Theorem unweighted_weights (i n : bool) (y : label_matrix) (a b : nat) (v : Q) :
  well_shaped y →
  (generate_coocurence_adjacency_matrix (clusterer false i n) y).2 !! (a, b)
    = Some v →
  v = if n && bool_decide (a = b) then (1 / 2)%Q else 1%Q.
Proof.
  intros Hy. cbn [generate_coocurence_adjacency_matrix snd].
  rewrite build_edge_map_lookup. cbn.
  case_decide as Hk; [|done]. intros [= <-]. destruct Hk as [_ Hk].
  apply (cooccurrences_lt _ _ _ Hy) in Hk as [Ha _].
  unfold stored_weight, count_weight. destruct n; cbn [andb].
  - case_bool_decide as Hab.
    + by rewrite decide_True by done.
    + by rewrite decide_False by (by intros (_ & ? & _)).
  - by rewrite decide_False by (by intros [? _]).
Qed.

Lemma unweighted_weights_witness :
  (1 # 2)%Q = (1 / 2)%Q.
Proof.
  apply (unweighted_weights true true
           {| n_labels := 1; samples := [[true]] |} 0 0 (1 # 2)%Q).
  - repeat constructor.
  - by vm_compute.
Defined.

(** C6, as stated, fails: labels 1 and 2 co-occur in the second row only, so
    the entry of [(1, 2)] is 1.0 and not 2.0. *)
Lemma example_edge_map_differs :
  (generate_coocurence_adjacency_matrix (clusterer true false false) example_y).2
  ≠ {[ (0, 1) := 1%Q; (0, 2) := 1%Q; (1, 2) := 2%Q ]}.
Proof.
  intros Heq. apply (f_equal (λ m : gmap (nat * nat) Q, m !! (1, 2))) in Heq.
  vm_compute in Heq. discriminate.
Qed.

(** C6, amended.  For the rows [1,0,1], [0,1,1], [1,1,0], weighted and
    without self-edges, the edge map is
    [{(0,1): 1.0, (0,2): 1.0, (1,2): 1.0}]. *)
Theorem example_edge_map :
  (generate_coocurence_adjacency_matrix (clusterer true false false) example_y).2
  = {[ (0, 1) := 1%Q; (0, 2) := 1%Q; (1, 2) := 1%Q ]}.
Proof. by vm_compute. Qed.

End EdgeMapClaims.

(** * The graph assembly *)

Section Assembly.

Implicit Types (items : list ((nat * nat) * Q)) (g : Graph).
Lemma assemble_snoc n items it :
  assemble n (items ++ [it]) = add_weighted_edge (assemble n items) it.
Proof. unfold assemble. by rewrite foldl_app. Qed.

Lemma assemble_directed n items : directed (assemble n items).1 = false.
Proof.
  induction items as [|it items IH] using rev_ind; [done|].
  by rewrite assemble_snoc.
Qed.

Lemma assemble_edges n items : edges (assemble n items).1 = items.*1.
Proof.
  induction items as [|it items IH] using rev_ind; [done|].
  rewrite assemble_snoc, fmap_app. cbn. rewrite IH. by destruct it as [[s t] v].
Qed.

Lemma assemble_weights n items e :
  (assemble n items).2 !! e = items.*2 !! e.
Proof.
  revert e. induction items as [|it items IH] using rev_ind; intros e.
  - cbn. by rewrite lookup_empty, lookup_nil.
  - rewrite assemble_snoc, fmap_app. cbn.
    rewrite assemble_edges, length_fmap.
    destruct (decide (e = length items)) as [->|Hne].
    + rewrite lookup_insert_eq.
      by rewrite lookup_app_r, length_fmap, Nat.sub_diag by (by rewrite length_fmap).
    + rewrite lookup_insert_ne, IH by done.
      destruct (decide (e < length items)) as [Hlt|Hge].
      * by rewrite lookup_app_l by (by rewrite length_fmap).
      * rewrite !lookup_ge_None_2; [done | | rewrite length_fmap; lia].
        rewrite length_app, length_fmap. simpl. lia.
Qed.

(** No edge whose endpoints exist creates a vertex. *)
Lemma assemble_num_vertices n items :
  Forall (λ it, it.1.1 < n ∧ it.1.2 < n) items →
  num_vertices (assemble n items).1 = n.
Proof.
  induction items as [|it items IH] using rev_ind; intros Hall; [done|].
  apply Forall_app in Hall as [Hitems Hit]. apply Forall_cons in Hit as [Hit _].
  rewrite assemble_snoc. cbn. rewrite IH by done. lia.
Qed.

(** An endpoint outside the vertices created up front does create vertices. *)
Lemma assemble_num_vertices_ge n items :
  n ≤ num_vertices (assemble n items).1.
Proof.
  induction items as [|it items IH] using rev_ind; [done|].
  rewrite assemble_snoc. cbn. lia.
Qed.

Lemma build_graph_instance_ok builder n y em :
  transform builder y = inr em →
  build_graph_instance builder n y = inr (assemble n (map_to_list em)).
Proof. unfold build_graph_instance. by intros ->. Qed.

Lemma build_graph_instance_err builder n y e :
  build_graph_instance builder n y = inl e ↔ transform builder y = inl e.
Proof.
  unfold build_graph_instance, bind, ret.
  destruct (transform builder y) as [e'|em]; [split; by intros [= ->]|].
  split; by intros ?.
Qed.

Lemma keys_lt self y a b :
  well_shaped y →
  is_Some (build_edge_map self y !! (a, b)) →
  a ≤ b ∧ b < n_labels y.
Proof.
  intros Hy. rewrite build_edge_map_lookup.
  case_decide as Hk; [intros _ | by intros [? ?]].
  destruct Hk as [Hp Hk]. apply (cooccurrences_lt _ _ _ Hy) in Hk as [_ Hb].
  split; [|done]. destruct (truthy (include_self_edges self)); simpl in Hp; lia.
Qed.

Lemma cooccurence_graph_vertices self y :
  well_shaped y →
  ∃ g wts,
    build_graph_instance (cooccurence_builder self) (n_labels y) y
      = inr (g, wts)
    ∧ num_vertices g = n_labels y
    ∧ edges g = (map_to_list (build_edge_map self y)).*1.
Proof.
  intros Hy.
  exists (assemble (n_labels y) (map_to_list (build_edge_map self y))).1,
         (assemble (n_labels y) (map_to_list (build_edge_map self y))).2.
  split; [by rewrite <- surjective_pairing|].
  split; [|apply assemble_edges].
  apply assemble_num_vertices, Forall_forall. intros [[a b] v] Hin.
  apply elem_of_map_to_list in Hin.
  destruct (keys_lt self y a b Hy) as [? ?]; [by eauto|]. simpl. lia.
Qed.

Lemma items_lt self y :
  well_shaped y →
  Forall (λ it : nat * nat * Q, it.1.1 < n_labels y ∧ it.1.2 < n_labels y)
         (map_to_list (build_edge_map self y)).
Proof.
  intros Hy. apply Forall_forall. intros [[a b] v] Hin.
  apply elem_of_map_to_list in Hin.
  destruct (keys_lt self y a b Hy) as [? ?]; [by eauto|]. simpl. lia.
Qed.

End Assembly.

Section AssemblyClaims.

(** C8.  [build_graph_instance] fails exactly when the edge-map builder
    fails, with the same exception.  Otherwise the graph is undirected and has
    one edge per entry of the edge map, the weight property of an edge is
    that entry's value, and no other edge has a weight; the graph has exactly
    [label_count] vertices when the keys the builder returned are label
    indices. *)
Theorem build_graph_instance_spec (builder : GraphBuilderBase)
    (label_count : nat) (y : label_matrix) :
  (∀ e, build_graph_instance builder label_count y = inl e
        ↔ transform builder y = inl e)
  ∧ (∀ em, transform builder y = inr em →
       (∀ s t, is_Some (em !! (s, t)) → s < label_count ∧ t < label_count) →
       ∃ g wts,
         build_graph_instance builder label_count y = inr (g, wts)
         ∧ directed g = false
         ∧ num_vertices g = label_count
         ∧ length (edges g) = size em
         ∧ NoDup (edges g)
         ∧ (∀ s t, (s, t) ∈ edges g ↔ is_Some (em !! (s, t)))
         ∧ (∀ e s t, edges g !! e = Some (s, t) → wts !! e = em !! (s, t))
         ∧ (∀ e, is_Some (wts !! e) → e < length (edges g))).
Proof.
  split; [intros e; apply build_graph_instance_err|].
  intros em Hem Hkeys.
  exists (assemble label_count (map_to_list em)).1,
         (assemble label_count (map_to_list em)).2.
  split; [by rewrite <- surjective_pairing; apply build_graph_instance_ok|].
  split; [apply assemble_directed|].
  split.
  { apply assemble_num_vertices, Forall_forall. intros [[s t] v] Hin.
    apply elem_of_map_to_list in Hin. apply Hkeys. by eauto. }
  rewrite assemble_edges.
  split; [by rewrite length_fmap, length_map_to_list|].
  split; [apply NoDup_fst_map_to_list|].
  split.
  { intros s t. rewrite list_elem_of_fmap. split.
    - intros ([k v] & -> & Hin). apply elem_of_map_to_list in Hin. by eauto.
    - intros [v Hv]. exists ((s, t), v). split; [done|].
      by apply elem_of_map_to_list. }
  split.
  { intros e s t He. rewrite assemble_weights, !list_lookup_fmap in *.
    destruct (map_to_list em !! e) as [[k v]|] eqn:Hit; [|done].
    cbn in He. injection He as ->. cbn. symmetry.
    apply elem_of_map_to_list, list_elem_of_lookup. by eauto. }
  intros e [v Hv]. rewrite assemble_weights in Hv.
  apply lookup_lt_Some in Hv. by rewrite !length_fmap in *.
Qed.

Lemma build_graph_instance_spec_witness :
  ∃ g wts,
    build_graph_instance (cooccurence_builder (clusterer true false false))
                         3 example_y = inr (g, wts)
    ∧ num_vertices g = 3 ∧ length (edges g) = 3.
Proof.
  destruct (build_graph_instance_spec
              (cooccurence_builder (clusterer true false false)) 3 example_y)
    as [_ Hok].
  destruct (Hok (build_edge_map (clusterer true false false) example_y) eq_refl)
    as (g & wts & Hrun & _ & Hn & Hlen & _).
  - intros s t Hst.
    destruct (keys_lt (clusterer true false false) example_y s t) as [? ?];
      [repeat constructor | done | vm_compute in *; lia].
  - exists g, wts. split; [done|]. split; [done|]. by rewrite Hlen.
Defined.

(** C9.  For a label matrix of shape [(n_samples, label_count)] every key
    [(a, b)] of the edge map satisfies [0 <= a <= b < label_count]; hence the
    graph built from it still has the [label_count] vertices created up
    front, every edge joins two of them, and no vertex was created by an
    edge. *)
Theorem keys_in_range (self : LabelCooccurenceClustererBase) (y : label_matrix) :
  well_shaped y →
  (∀ a b,
     is_Some ((generate_coocurence_adjacency_matrix self y).2 !! (a, b)) →
     0 ≤ a ∧ a ≤ b ∧ b < n_labels y)
  ∧ ∃ g wts,
      build_graph_instance (cooccurence_builder self) (n_labels y) y
        = inr (g, wts)
      ∧ num_vertices g = n_labels y
      ∧ Forall (λ e, e.1 < n_labels y ∧ e.2 < n_labels y) (edges g).
Proof.
  intros Hy. split.
  - intros a b Hab. destruct (keys_lt self y a b Hy Hab). lia.
  - destruct (cooccurence_graph_vertices self y Hy)
      as (g & wts & Hrun & Hn & Hedges).
    exists g, wts. split; [done|]. split; [done|].
    rewrite Hedges. apply Forall_fmap.
    eapply Forall_impl; [by apply (items_lt self)|]. by intros [[a b] v].
Qed.

Lemma keys_in_range_witness :
  ∃ g wts,
    build_graph_instance (cooccurence_builder (clusterer true true true))
                         3 example_y = inr (g, wts)
    ∧ num_vertices g = 3.
Proof.
  assert (well_shaped example_y) as Hy by (repeat constructor).
  destruct (keys_in_range (clusterer true true true) example_y Hy)
    as (_ & g & wts & Hrun & Hn & _).
  by exists g, wts.
Defined.

End AssemblyClaims.

(** * Model selection and cluster extraction *)

Section Inference.
Context `{GraphTool}.

Lemma bump_ok (h : list nat) (B : nat) :
  B < length h → ∃ h', bump h B = inr h' ∧ length h' = length h.
Proof.
  intros HB. unfold bump.
  destruct (lookup_lt_is_Some_2 h B HB) as [c ->].
  eexists. split; [done|]. apply length_insert.
Qed.

Lemma run_callback_ok sweeps : ∀ acc,
  Forall (λ s, get_nonempty_B s < length (m_h acc)) sweeps →
  ∃ acc', run_callback acc sweeps = inr acc'.
Proof.
  induction sweeps as [|s sweeps IH]; intros acc Hall; [by eexists|].
  apply Forall_cons in Hall as [Hs Hall]. cbn [run_callback].
  unfold collect_marginals.
  destruct (bump_ok _ _ Hs) as (h' & -> & Hlen). cbn.
  apply IH. cbn. by rewrite Hlen.
Qed.

(** What one call of [predict_communities] leaves on the instance. *)
Lemma predict_communities_spec self deg_corr st :
  nonempty_B_bounded →
  keyword_clash (equlibrate_options self) = false →
  ∃ st' S_mf S_bethe,
    predict_communities self deg_corr st = inr st'
    ∧ coocurence_graph st' = coocurence_graph st
    ∧ weights st' = weights st
    ∧ state_ st' = <[deg_corr := fitted self deg_corr st]> (state_ st)
    ∧ S_mf_ st' = <[deg_corr := S_mf]> (S_mf_ st)
    ∧ S_bethe_ st' = <[deg_corr := S_bethe]> (S_bethe_ st).
Proof.
  intros Hlaw Hclash. unfold predict_communities, fitted. rewrite Hclash.
  set (g := coocurence_graph st).
  set (ec := if truthy _ then _ else _).
  specialize (Hlaw g ec (allow_overlap self) deg_corr (gen st) (n_iters self)
                (n_init_iters self) (equlibrate_options self)).
  destruct (minimize_blockmodel_dl _ _ _ _ _) as [state0 r1]. cbn [fst snd] in *.
  specialize (Hlaw r1).
  destruct (mcmc_equilibrate _ _ _ _ _) as [[sweeps state2] r2].
  cbn [fst snd] in *.
  destruct (run_callback_ok sweeps
              {| m_vm := None; m_em := None; m_dls := [];
                 m_h := replicate (num_vertices g + 1) 0 |}) as [acc ->].
  { cbn. rewrite length_replicate. eapply Forall_impl; [done|].
    cbn. intros; lia. }
  cbn. by eexists _, _, _.
Qed.

Lemma getitem_Some {V} (d : gmap bool V) k v :
  d !! k = Some v → getitem d k = inr v.
Proof. unfold getitem. by intros ->. Qed.

(** The two entries of a dictionary after both fits. *)
Lemma lookup_both {V} (d : gmap bool V) (vt vf : V) :
  <[false := vf]> (<[true := vt]> d) !! true = Some vt
  ∧ <[false := vf]> (<[true := vt]> d) !! false = Some vf.
Proof.
  split; [by rewrite lookup_insert_ne, lookup_insert_eq | apply lookup_insert_eq].
Qed.

Lemma getitem_bind {V A} (d : gmap bool V) k v (f : V → except A) :
  d !! k = Some v → bind (getitem d k) f = f v.
Proof. intros Hk. by rewrite (getitem_Some _ _ _ Hk). Qed.

(** The two halves of [fit_predict] put together: which state is used, and
    where it comes from. *)
Lemma select_model_spec (self : GraphToolCooccurenceClusterer)
    (py : python) (y : label_matrix) (r : rng) (gw : Graph * gmap nat Q) :
  nonempty_B_bounded →
  keyword_clash (equlibrate_options self) = false →
  build_graph_instance (graph_builder self) (n_labels y) y = inr gw →
  let st0 := initial_fit_state gw.1 gw.2 r in
  ∃ which st' state_to_use,
    select_model self st0 = inr (which, st')
    ∧ state_ st' !! which = Some state_to_use
    ∧ fit_predict py self y r
      = bind (label_sets_of (get_blocks state_to_use))
          (λ ls, bind (len_of_filter py ls) (λ _, ret (ls, st')))
    ∧ match use_degree_corr self with
      | None =>
          ∃ st1 c_true c_false,
            predict_communities self true st0 = inr st1
            ∧ predict_communities self false st1 = inr st'
            ∧ state_ st' = {[ true := fitted self true st0;
                              false := fitted self false st1 ]}
            ∧ which = flt c_true c_false
            ∧ (model_selection_criterium self = "bethe" →
                 S_bethe_ st' !! true = Some c_true
                 ∧ S_bethe_ st' !! false = Some c_false)
            ∧ (model_selection_criterium self ≠ "bethe" →
                 S_mf_ st' !! true = Some c_true
                 ∧ S_mf_ st' !! false = Some c_false)
      | Some deg_corr =>
          predict_communities self deg_corr st0 = inr st'
          ∧ state_ st' = {[ deg_corr := fitted self deg_corr st0 ]}
          ∧ which = deg_corr
      end.
Proof.
  intros Hlaw Hclash Hbuild st0. unfold fit_predict, select_model.
  rewrite Hbuild. cbn [bind]. fold st0.
  destruct (use_degree_corr self) as [deg_corr|].
  - destruct (predict_communities_spec self deg_corr st0 Hlaw Hclash)
      as (st' & S_mf & S_bethe & Hrun & _ & _ & Hstate & _).
    rewrite Hrun. cbn [bind ret fst snd].
    exists deg_corr, st', (fitted self deg_corr st0).
    assert (state_ st' !! deg_corr = Some (fitted self deg_corr st0)) as Hlook
      by (rewrite Hstate; apply lookup_insert_eq).
    split; [done|]. split; [done|].
    split; [by rewrite (getitem_bind _ _ _ _ Hlook)|].
    split; [done|]. split; [|done]. by rewrite Hstate.
  - destruct (predict_communities_spec self true st0 Hlaw Hclash)
      as (st1 & mf1 & be1 & Hrun1 & _ & _ & Hstate1 & Hmf1 & Hbe1).
    destruct (predict_communities_spec self false st1 Hlaw Hclash)
      as (st2 & mf2 & be2 & Hrun2 & _ & _ & Hstate2 & Hmf2 & Hbe2).
    rewrite Hrun1. cbn [bind]. rewrite Hrun2. cbn [bind].
    rewrite Hmf1 in Hmf2. rewrite Hbe1 in Hbe2. rewrite Hstate1 in Hstate2.
    destruct (lookup_both (S_mf_ st0) mf1 mf2) as [Hmt Hmff].
    destruct (lookup_both (S_bethe_ st0) be1 be2) as [Hbt Hbf].
    destruct (lookup_both (state_ st0) (fitted self true st0)
                (fitted self false st1)) as [Hst Hsf].
    rewrite <- Hmf2 in Hmt, Hmff. rewrite <- Hbe2 in Hbt, Hbf.
    rewrite <- Hstate2 in Hst, Hsf.
    assert (state_ st2 = {[ true := fitted self true st0;
                            false := fitted self false st1 ]}) as Hdict.
    { rewrite Hstate2. subst st0. cbn [initial_fit_state state_].
      apply map_eq. intros [|]; by simplify_map_eq. }
    case_bool_decide as Hcrit.
    + rewrite (getitem_bind _ _ _ _ Hbt), (getitem_bind _ _ _ _ Hbf).
      cbn [bind ret fst snd].
      assert (∃ s, state_ st2 !! flt be1 be2 = Some s) as [s Hs]
        by (destruct (flt be1 be2); eauto).
      exists (flt be1 be2), st2, s.
      split; [done|]. split; [done|].
      split; [by rewrite (getitem_bind _ _ _ _ Hs)|].
      exists st1, be1, be2. by repeat split.
    + rewrite (getitem_bind _ _ _ _ Hmt), (getitem_bind _ _ _ _ Hmff).
      cbn [bind ret fst snd].
      assert (∃ s, state_ st2 !! flt mf1 mf2 = Some s) as [s Hs]
        by (destruct (flt mf1 mf2); eauto).
      exists (flt mf1 mf2), st2, s.
      split; [done|]. split; [done|].
      split; [by rewrite (getitem_bind _ _ _ _ Hs)|].
      exists st1, mf1, mf2. by repeat split.
Qed.

End Inference.

Section Extraction.

Implicit Types (blocks : list nat) (ls : gmap nat (list nat)).

Lemma elem_of_labels_of_block b k blocks i :
  i ∈ labels_of_block b k blocks ↔ ∃ j, i = k + j ∧ blocks !! j = Some b.
Proof.
  revert k. induction blocks as [|x rest IH]; intros k; cbn [labels_of_block].
  - split; [by intros ?%elem_of_nil | by intros (j & _ & ?)].
  - rewrite elem_of_app, IH. split.
    + intros [Hx | (j & -> & Hj)].
      * case_decide as Hxb; [|by apply elem_of_nil in Hx].
        apply list_elem_of_singleton in Hx as ->. exists 0. subst x.
        split; [lia | done].
      * exists (S j). split; [lia | done].
    + intros ([|j] & -> & Hj); cbn in Hj.
      * left. injection Hj as ->. rewrite decide_True by done.
        rewrite Nat.add_0_r. by apply list_elem_of_singleton.
      * right. exists j. split; [lia | done].
Qed.

Lemma NoDup_labels_of_block b k blocks : NoDup (labels_of_block b k blocks).
Proof.
  revert k. induction blocks as [|x rest IH]; intros k; cbn [labels_of_block];
    [constructor|].
  case_decide; cbn [app]; [|apply IH].
  constructor; [|apply IH].
  rewrite elem_of_labels_of_block. intros (j & ? & _). lia.
Qed.

Lemma append_label_lookup ls k x l :
  ls !! x = Some l →
  append_label ls k x = inr (<[x := l ++ [k]]> ls).
Proof. unfold append_label. by intros ->. Qed.

(** The loop over [enumerate(found_blocks)] appends to each list the labels
    of its block, in increasing order, when every block is a key. *)
Lemma assign_labels_spec blocks : ∀ ls k,
  (∀ x, x ∈ blocks → is_Some (ls !! x)) →
  ∃ ls', assign_labels ls k blocks = inr ls'
         ∧ ∀ b, ls' !! b = (λ l, l ++ labels_of_block b k blocks) <$> ls !! b.
Proof.
  induction blocks as [|x rest IH]; intros ls k Hkeys.
  - exists ls. split; [done|]. intros b. cbn.
    destruct (ls !! b); cbn; [by rewrite app_nil_r | done].
  - destruct (Hkeys x) as [l Hl]; [left|].
    cbn [assign_labels]. rewrite (append_label_lookup _ _ _ _ Hl). cbn [bind].
    destruct (IH (<[x := l ++ [k]]> ls) (S k)) as (ls' & -> & Hls').
    { intros x' Hx'. destruct (decide (x = x')) as [->|Hne].
      - rewrite lookup_insert_eq. by eexists.
      - rewrite lookup_insert_ne by done. apply Hkeys. by right. }
    exists ls'. split; [done|]. intros b. rewrite Hls'. cbn [labels_of_block].
    destruct (decide (x = b)) as [->|Hne].
    + rewrite lookup_insert_eq, Hl. cbn. by rewrite <- app_assoc.
    + by rewrite lookup_insert_ne.
Qed.

Lemma fst_empty_items (l : list nat) :
  ((λ b, (b, @nil nat)) <$> l).*1 = l.
Proof. induction l as [|b l IH]; cbn; [done|]. by rewrite IH. Qed.

Lemma empty_label_sets_lookup n b :
  empty_label_sets n !! b = if decide (b < n) then Some [] else None.
Proof.
  unfold empty_label_sets. case_decide as Hb.
  - apply elem_of_list_to_map_1.
    + rewrite fst_empty_items. apply NoDup_seq.
    + apply list_elem_of_fmap. exists b. split; [done|].
      apply elem_of_seq. lia.
  - apply not_elem_of_list_to_map_1. rewrite fst_empty_items.
    intros Hin. apply elem_of_seq in Hin. lia.
Qed.

Lemma values_spec n ls (f : nat → list nat) :
  (∀ b, b < n → ls !! b = Some (f b)) → values n ls = f <$> seq 0 n.
Proof.
  intros Hls. unfold values.
  assert (∀ l : list nat, Forall (λ b, b < n) l →
          omap (λ b, ls !! b) l = f <$> l) as Hgen.
  { induction l as [|b l IH]; intros Hall; [done|].
    apply Forall_cons in Hall as [Hb Hall].
    cbn. rewrite (Hls b Hb), IH by done. done. }
  apply Hgen, Forall_forall. intros b Hb. apply elem_of_seq in Hb. lia.
Qed.

Lemma label_sets_of_spec blocks :
  Forall (λ b, b < length blocks) blocks →
  label_sets_of blocks
  = inr (List.filter (λ x, 0 <? length x)
           ((λ b, labels_of_block b 0 blocks) <$> seq 0 (length blocks))).
Proof.
  intros Hall. unfold label_sets_of.
  destruct (assign_labels_spec blocks (empty_label_sets (length blocks)) 0)
    as (ls & -> & Hls).
  { intros x Hx. rewrite Forall_forall in Hall.
    rewrite empty_label_sets_lookup, decide_True by by apply Hall. by eexists. }
  cbn [bind ret]. f_equal. f_equal. apply values_spec.
  intros b Hb. by rewrite Hls, empty_label_sets_lookup, decide_True.
Qed.

Lemma filter_nonempty_ne (l : list (list nat)) :
  Forall (λ c, c ≠ []) (List.filter (λ x, 0 <? length x) l).
Proof.
  induction l as [|c l IH]; cbn; [constructor|].
  destruct c as [|x c]; cbn; [done|]. by constructor.
Qed.

Lemma concat_filter_nonempty (l : list (list nat)) :
  concat (List.filter (λ x, 0 <? length x) l) = concat l.
Proof.
  induction l as [|c l IH]; [done|].
  cbn [List.filter concat]. destruct c as [|x c]; [exact IH|].
  by rewrite <- IH.
Qed.

Lemma concat_fmap_bind (f : nat → list nat) (l : list nat) :
  concat (f <$> l) = l ≫= f.
Proof. induction l as [|x l IH]; cbn; [done|]. by rewrite IH. Qed.

(** The block lists, concatenated, hold every label once. *)
Lemma blocks_partition blocks n :
  Forall (λ b, b < n) blocks →
  concat ((λ b, labels_of_block b 0 blocks) <$> seq 0 n)
  ≡ₚ seq 0 (length blocks).
Proof.
  intros Hall. rewrite concat_fmap_bind. apply NoDup_Permutation.
  - apply NoDup_bind; [| |apply NoDup_seq].
    + intros b1 b2 i _ _ (j1 & -> & H1)%elem_of_labels_of_block
                         (j2 & Hj & H2)%elem_of_labels_of_block.
      assert (j1 = j2) as -> by lia. congruence.
    + intros b _. apply NoDup_labels_of_block.
  - apply NoDup_seq.
  - intros i. rewrite list_elem_of_bind, elem_of_seq. split.
    + intros (b & (j & -> & Hj)%elem_of_labels_of_block & _).
      apply lookup_lt_Some in Hj. lia.
    + intros [_ Hi]. destruct (lookup_lt_is_Some_2 blocks i) as [b Hb]; [lia|].
      exists b. split; [apply elem_of_labels_of_block; by exists i|].
      apply elem_of_seq. rewrite Forall_forall in Hall.
      split; [lia|]. cbn. apply Hall. by eapply list_elem_of_lookup_2.
Qed.

End Extraction.

Section Partition.
Context `{GraphTool}.

Lemma fitted_blocks self deg_corr st :
  blocks_cover_vertices →
  allow_overlap self = false →
  length (get_blocks (fitted self deg_corr st))
    = num_vertices (coocurence_graph st)
  ∧ Forall (λ b, b < num_vertices (coocurence_graph st))
           (get_blocks (fitted self deg_corr st)).
Proof.
  intros Hlaw Hov. unfold fitted. rewrite Hov. apply Hlaw.
Qed.

(** The clusters extracted from a block array over [n] vertices. *)
Lemma label_sets_of_partition blocks n :
  length blocks = n →
  Forall (λ b, b < n) blocks →
  ∃ clusters,
    label_sets_of blocks = inr clusters
    ∧ Forall (λ c, c ≠ []) clusters
    ∧ concat clusters ≡ₚ seq 0 n.
Proof.
  intros <- Hall. eexists. split; [by apply label_sets_of_spec|].
  split; [apply filter_nonempty_ne|].
  rewrite concat_filter_nonempty. by apply blocks_partition.
Qed.

(** Up to the length taken of the filter's result, [fit_predict] has the
    clusters in hand, and they partition the labels: they are non-empty and
    their concatenation is a rearrangement of [0 .. label_count - 1].  The
    library is relied on for a block array with one entry per vertex, each a
    block among as many blocks as vertices. *)
Lemma fit_predict_extraction (self : GraphToolCooccurenceClusterer)
    (b : LabelCooccurenceClustererBase) (y : label_matrix) (r : rng) :
  nonempty_B_bounded →
  blocks_cover_vertices →
  keyword_clash (equlibrate_options self) = false →
  graph_builder self = cooccurence_builder b →
  allow_overlap self = false →
  well_shaped y →
  ∃ clusters st,
    (∀ py, fit_predict py self y r
           = bind (len_of_filter py clusters) (λ _, ret (clusters, st)))
    ∧ Forall (λ c, c ≠ []) clusters
    ∧ concat clusters ≡ₚ seq 0 (n_labels y).
Proof.
  intros Hbound Hcover Hclash Hbuilder Hov Hy.
  destruct (cooccurence_graph_vertices b y Hy) as (g & wts & Hbuild & Hn & _).
  rewrite <- Hbuilder in Hbuild.
  destruct (select_model_spec self Python2 y r (g, wts) Hbound Hclash Hbuild)
    as (which & st' & s & Hsel & Hs & _ & Hcases).
  cbn [fst snd] in *.
  assert (length (get_blocks s) = n_labels y
          ∧ Forall (λ x, x < n_labels y) (get_blocks s)) as [Hlen Hall].
  { rewrite <- Hn. destruct (use_degree_corr self) as [deg_corr|].
    - destruct Hcases as (_ & Hstate & ->). rewrite Hstate in Hs.
      rewrite lookup_singleton_eq in Hs. injection Hs as <-.
      by apply (fitted_blocks self deg_corr (initial_fit_state g wts r)).
    - destruct Hcases as (st1 & ct & cf & Hrun1 & _ & Hstate & _).
      destruct (predict_communities_spec self true (initial_fit_state g wts r)
                  Hbound Hclash) as (st1' & _ & _ & Hrun1' & Hg & _).
      rewrite Hrun1 in Hrun1'. injection Hrun1' as <-.
      rewrite Hstate in Hs. destruct which.
      + rewrite lookup_insert_eq in Hs. injection Hs as <-.
        by apply (fitted_blocks self true (initial_fit_state g wts r)).
      + rewrite lookup_insert_ne, lookup_singleton_eq in Hs by done.
        injection Hs as <-.
        destruct (fitted_blocks self false st1 Hcover Hov) as [? ?].
        by rewrite Hg in *. }
  destruct (label_sets_of_partition (get_blocks s) (n_labels y) Hlen Hall)
    as (clusters & Hls & Hne & Hperm).
  exists clusters, st'. split; [|done].
  intros py.
  destruct (select_model_spec self py y r (g, wts) Hbound Hclash Hbuild)
    as (which' & st'' & s' & Hsel' & Hs' & -> & _).
  cbn [fst snd] in *. rewrite Hsel in Hsel'. injection Hsel' as <- <-.
  rewrite Hs in Hs'. injection Hs' as <-. by rewrite Hls.
Qed.

(** On Python 2, where [filter] returns a list, [fit_predict] returns that
    partition. *)
Lemma fit_predict_python2_partition (self : GraphToolCooccurenceClusterer)
    (b : LabelCooccurenceClustererBase) (y : label_matrix) (r : rng) :
  nonempty_B_bounded →
  blocks_cover_vertices →
  keyword_clash (equlibrate_options self) = false →
  graph_builder self = cooccurence_builder b →
  allow_overlap self = false →
  well_shaped y →
  ∃ clusters st,
    fit_predict Python2 self y r = inr (clusters, st)
    ∧ Forall (λ c, c ≠ []) clusters
    ∧ concat clusters ≡ₚ seq 0 (n_labels y).
Proof.
  intros Hbound Hcover Hclash Hbuilder Hov Hy.
  destruct (fit_predict_extraction self b y r Hbound Hcover Hclash Hbuilder
              Hov Hy) as (clusters & st & Hrun & Hne & Hperm).
  exists clusters, st. by rewrite Hrun.
Qed.

(** On Python 3 no run of [fit_predict] returns: a run that gets as far as
    the clusters stops at [len(self.label_sets)]. *)
Lemma fit_predict_python3_never_returns (self : GraphToolCooccurenceClusterer)
    (y : label_matrix) (r : rng) :
  ∃ e, fit_predict Python3 self y r = inl e.
Proof.
  unfold fit_predict.
  destruct (build_graph_instance _ _ _) as [e|gw]; cbn [bind]; [by eexists|].
  destruct (select_model _ _) as [e|sel]; cbn [bind]; [by eexists|].
  destruct (getitem _ _) as [e|s]; cbn [bind]; [by eexists|].
  destruct (label_sets_of _) as [e|ls]; cbn [bind]; by eexists.
Qed.

(** C1, on Python 3: even when the builder, the options and the library
    behave and the clusters partition the labels, [fit_predict] does not
    return them: [self.model_count = len(self.label_sets)] raises the
    [TypeError] of taking the length of a filter object. *)
Theorem fit_predict_python3_raises (self : GraphToolCooccurenceClusterer)
    (b : LabelCooccurenceClustererBase) (y : label_matrix) (r : rng) :
  nonempty_B_bounded →
  blocks_cover_vertices →
  keyword_clash (equlibrate_options self) = false →
  graph_builder self = cooccurence_builder b →
  allow_overlap self = false →
  well_shaped y →
  fit_predict Python3 self y r
  = inl (TypeError "object of type 'filter' has no len()").
Proof.
  intros Hbound Hcover Hclash Hbuilder Hov Hy.
  destruct (fit_predict_extraction self b y r Hbound Hcover Hclash Hbuilder
              Hov Hy) as (clusters & st & Hrun & _).
  by rewrite Hrun.
Qed.

End Partition.

Section StandIn.

Lemma length_remove_dups (l : list nat) : length (remove_dups l) ≤ length l.
Proof.
  induction l as [|x l IH]; cbn; [done|].
  destruct (decide_rel _ x l); cbn; lia.
Qed.

Lemma stand_in_bounded : nonempty_B_bounded.
Proof.
  intros g ec overlap deg_corr r niter ninit opts r'. cbn.
  apply Forall_replicate. unfold count_blocks.
  etrans; [apply length_remove_dups|].
  destruct deg_corr; by rewrite ?length_seq, ?length_replicate.
Qed.

Lemma stand_in_covers : blocks_cover_vertices.
Proof.
  intros g ec deg_corr r niter ninit opts r'. cbn. destruct deg_corr.
  - split; [apply length_seq|].
    apply Forall_forall. intros x Hx. apply elem_of_seq in Hx. lia.
  - split; [apply length_replicate|].
    destruct (num_vertices g) as [|n]; [constructor|].
    apply Forall_replicate. lia.
Qed.

Lemma fit_predict_python3_raises_witness :
  fit_predict Python3 (example_clusterer None "bethe") example_y 0
  = inl (TypeError "object of type 'filter' has no len()").
Proof.
  apply (fit_predict_python3_raises (example_clusterer None "bethe")
           (clusterer true false false) example_y 0).
  - apply stand_in_bounded.
  - apply stand_in_covers.
  - reflexivity.
  - reflexivity.
  - reflexivity.
  - repeat constructor.
Defined.

Example fit_predict_bethe :
  match fit_predict Python2 (example_clusterer None "bethe") example_y 0 with
  | inr (clusters, _) => Some clusters
  | inl _ => None
  end = Some [[0]; [1]; [2]].
Proof. by vm_compute. Qed.

Example fit_predict_mean_field :
  match fit_predict Python2 (example_clusterer None "mean_field") example_y 0 with
  | inr (clusters, _) => Some clusters
  | inl _ => None
  end = Some [[0; 1; 2]].
Proof. by vm_compute. Qed.

End StandIn.

(** * The constructor *)

Section Constructor.

(** C3, at an input that is not a boolean: [weighted=1] passes the test
    [weighted not in [True, False]], no [ValueError] is raised and the
    instance is built with [is_weighted = 1]. *)
Theorem init_accepts_integer_flag :
  init (PyInt 1) (PyBool true) (PyBool false)
  = inr {| is_weighted := PyInt 1;
           include_self_edges := PyBool true;
           normalize_self_edges := PyBool false;
           label_count := None;
           edge_map := None |}.
Proof. reflexivity. Qed.

(** On three booleans the constructor raises exactly when normalisation is
    asked for without self-edges. *)
Lemma init_booleans (w i n : bool) :
  init (PyBool w) (PyBool i) (PyBool n)
  = if negb i && n
    then raise (ValueError
           "Include self edges must be set to true if normalization is true")
    else ret (clusterer w i n).
Proof. by destruct w, i, n. Qed.

(** What the constructor does raise on, and that it raises nothing but
    [ValueError]. *)
Lemma init_raises_iff (w i n : pyval) :
  (∃ e, init w i n = inl e) ↔
  py_in w [PyBool true; PyBool false] = false
  ∨ py_in i [PyBool true; PyBool false] = false
  ∨ py_in n [PyBool true; PyBool false] = false
  ∨ (truthy i = false ∧ truthy n = true).
Proof.
  unfold init.
  destruct (py_in w _), (py_in i _), (py_in n _), (truthy i), (truthy n);
    cbn; split; try (by intros [? ?]); try (by eauto 6);
    intros [?|[?|[?|[? ?]]]]; done.
Qed.

Lemma init_raises_ValueError (w i n : pyval) (e : exn) :
  init w i n = inl e → ∃ msg, e = ValueError msg.
Proof.
  unfold init.
  destruct (py_in w _), (py_in i _), (py_in n _), (truthy i), (truthy n);
    cbn; intros [= <-]; by eexists.
Qed.

End Constructor.

(** * Further properties of the edge map builder *)

Section EdgeMapMore.

Lemma count_weight_mono w k k' :
  k ≤ k' → (count_weight w k <= count_weight w k')%Q.
Proof.
  intros Hk. unfold count_weight. destruct w; [|apply Qle_refl].
  unfold Qle, inject_Z. simpl. lia.
Qed.

Lemma stored_weight_mono w n l a b k k' :
  k ≤ k' → (stored_weight w n l a b k <= stored_weight w n l a b k')%Q.
Proof.
  intros Hk. unfold stored_weight. case_decide.
  - unfold Qdiv. apply Qmult_le_compat_r; [by apply count_weight_mono | done].
  - by apply count_weight_mono.
Qed.

Lemma cooccurrences_add_sample y r a b :
  cooccurrences (add_sample y r) a b
  = cooccurrences y a b
    + (if decide (has_label r a ∧ has_label r b) then 1 else 0).
Proof.
  unfold cooccurrences, add_sample. cbn [samples].
  rewrite filter_app, length_app. f_equal.
  rewrite filter_cons, filter_nil. by case_decide.
Qed.

(** X1.  In weighted mode the entry of two different labels [a < b] is the
    number of sample rows that carry both, whatever the self-edge flags are:
    normalisation never touches it.  Labels that never co-occur have no
    entry. *)
Theorem weighted_pair_count (i n : bool) (y : label_matrix) (a b : nat) :
  a < b →
  (generate_coocurence_adjacency_matrix (clusterer true i n) y).2 !! (a, b)
  = if decide (cooccurrences y a b = 0) then None
    else Some (inject_Z (Z.of_nat (cooccurrences y a b))).
Proof.
  intros Hab. cbn [generate_coocurence_adjacency_matrix snd].
  rewrite build_edge_map_lookup. cbn.
  assert (pair_policy i a b) as Hp by (destruct i; simpl; lia).
  destruct (decide (cooccurrences y a b = 0)) as [Hk|Hk].
  - by rewrite decide_False by (by intros [_ ?]).
  - rewrite decide_True by done. f_equal. unfold stored_weight, count_weight.
    by rewrite decide_False by lia.
Qed.

Lemma weighted_pair_count_witness :
  (generate_coocurence_adjacency_matrix (clusterer true true true) example_y).2
    !! (1, 2) = Some (inject_Z 1).
Proof. apply (weighted_pair_count true true example_y 1 2). lia. Defined.

(** X2.  The edge map does not depend on the order of the sample rows: two
    matrices with the same number of columns whose rows are a rearrangement
    of one another give the same edge map. *)
Theorem row_order_irrelevant (self : LabelCooccurenceClustererBase)
    (y y' : label_matrix) :
  n_labels y = n_labels y' →
  samples y ≡ₚ samples y' →
  (generate_coocurence_adjacency_matrix self y).2
  = (generate_coocurence_adjacency_matrix self y').2.
Proof.
  intros Hn Hperm. cbn [generate_coocurence_adjacency_matrix snd].
  apply map_eq. intros [a b]. rewrite !build_edge_map_lookup.
  assert (cooccurrences y a b = cooccurrences y' a b) as ->
    by (unfold cooccurrences; by rewrite Hperm).
  by rewrite Hn.
Qed.

Lemma row_order_irrelevant_witness :
  (generate_coocurence_adjacency_matrix (clusterer true true true) example_y).2
  = (generate_coocurence_adjacency_matrix (clusterer true true true)
       {| n_labels := 3;
          samples := [[false; true; true]; [true; false; true];
                      [true; true; false]] |}).2.
Proof.
  apply row_order_irrelevant; [reflexivity|]. cbn. apply perm_swap.
Defined.

(** X3.  Excluding self-edges only removes the diagonal: the edge map built
    without self-edges is the one built with them (normalised or not) with
    the keys [(i, i)] dropped; no other key or weight changes. *)
Theorem without_self_edges_is_filter (w n : bool) (y : label_matrix) :
  (generate_coocurence_adjacency_matrix (clusterer w false false) y).2
  = filter (λ kv : (nat * nat) * Q, kv.1.1 ≠ kv.1.2)
      (generate_coocurence_adjacency_matrix (clusterer w true n) y).2.
Proof.
  cbn [generate_coocurence_adjacency_matrix snd].
  apply map_eq. intros [a b]. rewrite map_lookup_filter.
  rewrite !build_edge_map_lookup. cbn.
  destruct (decide (a = b)) as [->|Hne].
  - rewrite decide_False by lia. case_decide; [|done]. cbn.
    by rewrite option_guard_False by (by intros ?).
  - destruct (decide (cooccurrences y a b = 0)) as [Hk|Hk].
    { rewrite !decide_False by (by intros [_ ?]). done. }
    destruct (decide (a < b)) as [Hlt|Hge].
    + rewrite !decide_True by (split; [lia | done]). cbn.
      rewrite option_guard_True by done. cbn. f_equal.
      unfold stored_weight.
      rewrite !decide_False; [done | by intros (_ & ? & _) | by intros [? _]].
    + rewrite !decide_False by lia. done.
Qed.

(** X4.  A matrix without any label set, in particular one with no rows,
    yields the empty edge map, for every instance. *)
Theorem no_labels_no_edges (self : LabelCooccurenceClustererBase)
    (y : label_matrix) :
  (∀ r i, r ∈ samples y → ¬ has_label r i) →
  (generate_coocurence_adjacency_matrix self y).2 = ∅.
Proof.
  intros Hnone. cbn [generate_coocurence_adjacency_matrix snd].
  apply map_eq. intros [a b]. rewrite build_edge_map_lookup, lookup_empty.
  rewrite decide_False; [done|]. intros [_ Hk].
  apply cooccurrences_pos in Hk as (r & Hin & Ha & _). by eapply Hnone.
Qed.

Lemma no_labels_no_edges_witness :
  (generate_coocurence_adjacency_matrix (clusterer true true true)
     {| n_labels := 4; samples := [] |}).2 = ∅.
Proof. apply no_labels_no_edges. intros r i Hin. by apply elem_of_nil in Hin. Defined.

(** X5.  One more sample row never removes an entry and never lowers a
    weight: every key of the edge map keeps an entry with a weight at least
    as large. *)
Theorem add_sample_monotone (self : LabelCooccurenceClustererBase)
    (y : label_matrix) (r : list bool) (k : nat * nat) (v : Q) :
  (generate_coocurence_adjacency_matrix self y).2 !! k = Some v →
  ∃ v', (generate_coocurence_adjacency_matrix self (add_sample y r)).2 !! k
        = Some v'
        ∧ (v <= v')%Q.
Proof.
  destruct k as [a b]. cbn [generate_coocurence_adjacency_matrix snd].
  rewrite !build_edge_map_lookup, cooccurrences_add_sample.
  case_decide as Hk; [|done]. destruct Hk as [Hp Hk]. intros [= <-].
  rewrite decide_True by (split; [done | lia]).
  eexists. split; [done|]. cbn [add_sample n_labels].
  apply stored_weight_mono. lia.
Qed.

Lemma add_sample_monotone_witness :
  ∃ v', (generate_coocurence_adjacency_matrix (clusterer true false false)
           (add_sample example_y [false; true; true])).2 !! (1, 2) = Some v'
        ∧ (1 <= v')%Q.
Proof.
  apply (add_sample_monotone (clusterer true false false) example_y).
  by vm_compute.
Defined.

(** X6.  The builder only looks at the truth value of the three flags: an
    instance that [__init__] accepted, whether its flags are booleans or the
    integers equal to them, builds the same edge map as the instance with the
    corresponding booleans. *)
Theorem flags_by_truth_value (w i n : pyval)
    (self : LabelCooccurenceClustererBase) (y : label_matrix) :
  init w i n = inr self →
  (generate_coocurence_adjacency_matrix self y).2
  = (generate_coocurence_adjacency_matrix
       (clusterer (truthy w) (truthy i) (truthy n)) y).2.
Proof.
  unfold init. repeat (case_match; [by intros ?|]). by intros [= <-].
Qed.

Lemma flags_by_truth_value_witness :
  (generate_coocurence_adjacency_matrix
     {| is_weighted := PyInt 1; include_self_edges := PyInt 0;
        normalize_self_edges := PyBool false;
        label_count := None; edge_map := None |} example_y).2
  = (generate_coocurence_adjacency_matrix
       (clusterer true false false) example_y).2.
Proof.
  apply (flags_by_truth_value (PyInt 1) (PyInt 0) (PyBool false)). reflexivity.
Defined.

End EdgeMapMore.

(** * Further properties of the constructor *)

Section ConstructorMore.

(** A float equal to [True] passes the membership test as the integer
    does. *)
Lemma init_accepts_float_flag :
  init (PyFloat 1) (PyBool true) (PyBool false)
  = inr {| is_weighted := PyFloat 1;
           include_self_edges := PyBool true;
           normalize_self_edges := PyBool false;
           label_count := None;
           edge_map := None |}.
Proof. reflexivity. Qed.

(** X7.  On three booleans [__init__] raises exactly when
    [normalize_self_edges] is true while [include_self_edges] is false, and
    then it is the [ValueError] about normalisation; in every other case it
    returns the instance that holds the three booleans. *)
Theorem init_on_booleans (w i n : bool) :
  (n = true ∧ i = false →
   init (PyBool w) (PyBool i) (PyBool n)
   = inl (ValueError
       "Include self edges must be set to true if normalization is true"))
  ∧ (¬ (n = true ∧ i = false) →
     init (PyBool w) (PyBool i) (PyBool n) = inr (clusterer w i n)).
Proof.
  rewrite init_booleans. split.
  - by intros [-> ->].
  - intros Hok. destruct i, n; try done. destruct Hok. done.
Qed.

Lemma init_on_booleans_witness :
  init (PyBool true) (PyBool false) (PyBool true)
  = inl (ValueError
      "Include self edges must be set to true if normalization is true").
Proof. by apply (init_on_booleans true false true). Defined.

(** X8.  Every instance [__init__] builds holds the three flags as given,
    has no [label_count] and no [edge_map] yet, and never asks for
    normalisation without self-edges. *)
Theorem init_invariant (w i n : pyval) (self : LabelCooccurenceClustererBase) :
  init w i n = inr self →
  is_weighted self = w
  ∧ include_self_edges self = i
  ∧ normalize_self_edges self = n
  ∧ label_count self = None
  ∧ edge_map self = None
  ∧ (truthy (normalize_self_edges self) = true →
     truthy (include_self_edges self) = true).
Proof.
  unfold init. do 3 (case_match; [by intros ?|]).
  destruct (truthy i) eqn:Hi, (truthy n) eqn:Hn; cbn; try (by intros ?);
    intros [= <-]; cbn; by rewrite ?Hi, ?Hn.
Qed.

Lemma init_invariant_witness :
  normalize_self_edges (clusterer false true true) = PyBool true
  ∧ label_count (clusterer false true true) = None.
Proof.
  destruct (init_invariant (PyBool false) (PyBool true) (PyBool true)
              (clusterer false true true) eq_refl)
    as (_ & _ & Hn & Hl & _).
  by split.
Defined.

End ConstructorMore.

(** * Further properties of the graph assembly *)

Section AssemblyMore.

Lemma assemble_vertices n (items : list ((nat * nat) * Q)) :
  let nv := num_vertices (assemble n items).1 in
  n ≤ nv
  ∧ Forall (λ it, it.1.1 < nv ∧ it.1.2 < nv) items
  ∧ ∀ m, n ≤ m → Forall (λ it, it.1.1 < m ∧ it.1.2 < m) items → nv ≤ m.
Proof.
  induction items as [|it items IH] using rev_ind; cbn zeta in *.
  - split; [done|]. split; [constructor|]. intros m Hm _. by cbn.
  - destruct IH as (Hge & Hall & Hleast). rewrite assemble_snoc. cbn.
    split; [lia|]. split.
    + apply Forall_app. split.
      * eapply Forall_impl; [done|]. cbn. intros ? [? ?]. lia.
      * apply Forall_cons. split; [lia | constructor].
    + intros m Hm [Hitems Hit]%Forall_app.
      apply Forall_cons in Hit as [Hit _]. specialize (Hleast m Hm Hitems). lia.
Qed.

(** X9.  Whatever the builder returns, the graph contains the endpoints of
    all its edges: it has at least [label_count] vertices, every endpoint is
    one of its vertices, and it has no more vertices than that takes.  A key
    outside [0 .. label_count - 1] therefore makes the graph larger than the
    label space instead of failing. *)
Theorem graph_holds_every_endpoint (builder : GraphBuilderBase)
    (label_count : nat) (y : label_matrix) (em : gmap (nat * nat) Q) :
  transform builder y = inr em →
  ∃ g wts,
    build_graph_instance builder label_count y = inr (g, wts)
    ∧ label_count ≤ num_vertices g
    ∧ (∀ s t, (s, t) ∈ edges g → s < num_vertices g ∧ t < num_vertices g)
    ∧ (∀ m, label_count ≤ m →
         (∀ s t, is_Some (em !! (s, t)) → s < m ∧ t < m) →
         num_vertices g ≤ m).
Proof.
  intros Hem.
  destruct (assemble_vertices label_count (map_to_list em))
    as (Hge & Hall & Hleast).
  exists (assemble label_count (map_to_list em)).1,
         (assemble label_count (map_to_list em)).2.
  split; [by rewrite <- surjective_pairing; apply build_graph_instance_ok|].
  split; [done|]. split.
  - intros s t. rewrite assemble_edges.
    intros ([[s' t'] v] & [= -> ->] & Hin)%list_elem_of_fmap.
    rewrite Forall_forall in Hall. apply (Hall _ Hin).
  - intros m Hm Hkeys. apply Hleast; [done|].
    apply Forall_forall. intros [[s t] v] Hin.
    apply elem_of_map_to_list in Hin. apply Hkeys. by eauto.
Qed.

Lemma graph_holds_every_endpoint_witness :
  ∃ g wts,
    build_graph_instance (constant_builder {[ (0, 5) := 1%Q ]}) 3 example_y
      = inr (g, wts)
    ∧ num_vertices g = 6.
Proof.
  destruct (graph_holds_every_endpoint (constant_builder {[ (0, 5) := 1%Q ]})
              3 example_y {[ (0, 5) := 1%Q ]} eq_refl)
    as (g & wts & Hrun & _ & Hin & Hleast).
  exists g, wts. split; [done|].
  assert (5 < num_vertices g) as Hlo.
  { injection Hrun as <- _. apply (Hin 0 5). vm_compute. left. }
  assert (num_vertices g ≤ 6) as Hhi.
  { apply Hleast; [lia|]. intros s t [v Hst].
    apply lookup_singleton_Some in Hst as [[= <- <-] _]. lia. }
  lia.
Defined.

(** X10.  A matrix without any label set gives the graph of [label_count]
    isolated vertices: no edge and no weight. *)
Theorem no_labels_isolated_vertices (self : LabelCooccurenceClustererBase)
    (label_count : nat) (y : label_matrix) :
  (∀ r i, r ∈ samples y → ¬ has_label r i) →
  build_graph_instance (cooccurence_builder self) label_count y
  = inr ({| directed := false; num_vertices := label_count; edges := [] |}, ∅).
Proof.
  intros Hnone. unfold build_graph_instance, cooccurence_builder. cbn.
  assert (build_edge_map self y = ∅) as ->.
  { apply map_eq. intros [a b]. rewrite build_edge_map_lookup, lookup_empty.
    rewrite decide_False; [done|]. intros [_ Hk].
    apply cooccurrences_pos in Hk as (r & Hin & Ha & _). by eapply Hnone. }
  by rewrite map_to_list_empty.
Qed.

Lemma no_labels_isolated_vertices_witness :
  build_graph_instance (cooccurence_builder (clusterer true true true)) 2
    {| n_labels := 2; samples := [[false; false]] |}
  = inr ({| directed := false; num_vertices := 2; edges := [] |}, ∅).
Proof.
  apply no_labels_isolated_vertices. intros r i Hin.
  apply list_elem_of_singleton in Hin as ->. by destruct i as [|[|i]].
Defined.

(** X11.  The graph built from the co-occurrence edge map has the loop
    [(i, i)] exactly when self-edges are included and label [i] occurs in some
    sample row. *)
Theorem self_loop_iff (self : LabelCooccurenceClustererBase)
    (label_count : nat) (y : label_matrix) (i : nat) :
  ∃ g wts,
    build_graph_instance (cooccurence_builder self) label_count y = inr (g, wts)
    ∧ ((i, i) ∈ edges g ↔
       truthy (include_self_edges self) = true ∧ occurrences y i ≠ 0).
Proof.
  exists (assemble label_count (map_to_list (build_edge_map self y))).1,
         (assemble label_count (map_to_list (build_edge_map self y))).2.
  split; [by rewrite <- surjective_pairing|].
  rewrite assemble_edges, <- cooccurrences_diag. split.
  - intros ([k v] & Hk & Hin)%list_elem_of_fmap. cbn in Hk. subst k.
    apply elem_of_map_to_list in Hin. rewrite build_edge_map_lookup in Hin.
    case_decide as Hkey; [|done]. destruct Hkey as [Hp Hk]. split; [|done].
    destruct (truthy (include_self_edges self)); [done | simpl in Hp; lia].
  - intros [Hincl Hk].
    assert (is_Some (build_edge_map self y !! (i, i))) as [v Hv].
    { rewrite build_edge_map_lookup, Hincl.
      rewrite decide_True by (split; [simpl; lia | done]). by eexists. }
    apply list_elem_of_fmap. exists ((i, i), v). split; [done|].
    by apply elem_of_map_to_list.
Qed.

End AssemblyMore.

(** * Further properties of [predict_communities] *)

Section PredictMore.
Context `{GraphTool}.

Lemma sum_list_bump (h : list nat) (B c : nat) :
  h !! B = Some c → sum_list (<[B := S c]> h) = S (sum_list h).
Proof.
  revert B. induction h as [|x h IH]; intros [|B] HB; try done.
  - injection HB as ->. reflexivity.
  - change (x + sum_list (<[B := S c]> h) = S (x + sum_list h)).
    rewrite (IH B HB). lia.
Qed.

Lemma sweeps_with_cons B s sweeps :
  sweeps_with B (s :: sweeps)
  = (if decide (get_nonempty_B s = B) then 1 else 0) + sweeps_with B sweeps.
Proof. unfold sweeps_with. rewrite filter_cons. by case_decide. Qed.

(** What the callback has accumulated when it never raised. *)
Lemma run_callback_marginals sweeps : ∀ acc acc',
  run_callback acc sweeps = inr acc' →
  m_vm acc' = foldl (λ o s, Some (collect_vertex_marginals s o)) (m_vm acc) sweeps
  ∧ m_em acc' = foldl (λ o s, Some (collect_edge_marginals s o)) (m_em acc) sweeps.
Proof.
  induction sweeps as [|s sweeps IH]; intros acc acc'; cbn [run_callback].
  - by intros [= <-].
  - unfold collect_marginals, bump.
    destruct (m_h acc !! get_nonempty_B s) as [c|]; [|done].
    cbn [bind ret]. intros Hrun. by destruct (IH _ _ Hrun) as [-> ->].
Qed.

Lemma run_callback_inv sweeps : ∀ acc acc',
  run_callback acc sweeps = inr acc' →
  m_dls acc' = m_dls acc ++ (entropy <$> sweeps)
  ∧ length (m_h acc') = length (m_h acc)
  ∧ sum_list (m_h acc') = sum_list (m_h acc) + length sweeps
  ∧ (∀ B, m_h acc' !! B = (λ c, c + sweeps_with B sweeps) <$> m_h acc !! B)
  ∧ Forall (λ s, get_nonempty_B s < length (m_h acc)) sweeps.
Proof.
  induction sweeps as [|s sweeps IH]; intros acc acc'; cbn [run_callback].
  - intros [= <-]. rewrite app_nil_r. split; [done|]. split; [done|].
    split; [cbn; lia|]. split; [|constructor].
    intros B. destruct (m_h acc !! B); cbn; [|done].
    f_equal. unfold sweeps_with. cbn. lia.
  - unfold collect_marginals, bump.
    destruct (m_h acc !! get_nonempty_B s) as [c|] eqn:Hc; [|done].
    cbn [bind ret]. intros Hrun.
    destruct (IH _ _ Hrun) as (Hdls & Hlen & Hsum & Hh & Hall).
    cbn [m_dls m_h] in *. rewrite length_insert in Hlen, Hall.
    split; [by rewrite Hdls, <- app_assoc|]. split; [done|].
    split; [rewrite Hsum, (sum_list_bump _ _ _ Hc); cbn; lia|].
    split.
    + intros B. rewrite Hh, sweeps_with_cons.
      destruct (decide (get_nonempty_B s = B)) as [<-|Hne].
      * rewrite list_lookup_insert_eq by by eapply lookup_lt_Some.
        rewrite Hc. cbn. f_equal. lia.
      * rewrite list_lookup_insert_ne by done.
        destruct (m_h acc !! B); cbn; [f_equal; lia | done].
    + constructor; [by eapply lookup_lt_Some | done].
Qed.

(** When the callback raises: at the first state whose number of non-empty
    blocks is outside the histogram. *)
Lemma run_callback_err sweeps : ∀ acc e,
  run_callback acc sweeps = inl e ↔
  ∃ pre s post,
    sweeps = pre ++ s :: post
    ∧ Forall (λ s', get_nonempty_B s' < length (m_h acc)) pre
    ∧ length (m_h acc) ≤ get_nonempty_B s
    ∧ e = IndexError (get_nonempty_B s).
Proof.
  induction sweeps as [|s sweeps IH]; intros acc e; cbn [run_callback].
  - split; [done|]. intros (pre & s & post & Heq & _). by destruct pre.
  - unfold collect_marginals, bump.
    destruct (m_h acc !! get_nonempty_B s) as [c|] eqn:Hc; cbn [bind ret raise].
    + apply lookup_lt_Some in Hc as Hlt. rewrite IH. cbn [m_h].
      rewrite length_insert. split.
      * intros (pre & s' & post & -> & Hpre & Hs' & ->).
        exists (s :: pre), s', post. by repeat split; [constructor|..].
      * intros ([|s0 pre] & s' & post & Heq & Hpre & Hs' & ->);
          cbn in Heq; injection Heq as -> ->; [lia|].
        apply Forall_cons in Hpre as [_ Hpre].
        by exists pre, s', post.
    + apply lookup_ge_None in Hc. split.
      * intros [= <-]. exists [], s, sweeps. by repeat split; [constructor|..].
      * intros ([|s0 pre] & s' & post & Heq & Hpre & Hs' & ->);
          cbn in Heq; injection Heq as -> ->; [done|].
        apply Forall_cons in Hpre as [Hlt _]. lia.
Qed.

(** [predict_communities] in terms of the callback run. *)
Lemma predict_communities_unfold self deg_corr st :
  predict_communities self deg_corr st
  = if keyword_clash (equlibrate_options self) then
      inl (TypeError
        "mcmc_equilibrate() got multiple values for keyword argument")
    else
    bind (run_callback
            {| m_vm := None; m_em := None; m_dls := [];
               m_h := replicate (num_vertices (coocurence_graph st) + 1) 0 |}
            (sweeps_of self deg_corr st))
      (λ acc,
         let g := coocurence_graph st in
         let L := fneg (mean (m_dls acc)) in
         ret {| coocurence_graph := g;
                weights := weights st;
                dls_ := <[deg_corr := m_dls acc]> (dls_ st);
                vm_ := <[deg_corr := m_vm acc]> (vm_ st);
                em_ := <[deg_corr := m_em acc]> (em_ st);
                h_ := <[deg_corr := m_h acc]> (h_ st);
                state_ := <[deg_corr := fitted self deg_corr st]> (state_ st);
                S_bethe_ := <[deg_corr := bethe_entropy g (m_em acc)]>
                              (S_bethe_ st);
                S_mf_ := <[deg_corr := mf_entropy g (m_vm acc)]> (S_mf_ st);
                L_ := <[deg_corr := L]> (L_ st);
                stdout := stdout st ++
                  (if verbose self
                   then [(deg_corr, fadd L (mf_entropy g (m_vm acc)),
                          fadd L (bethe_entropy g (m_em acc)))]
                   else []);
                gen := (mcmc_equilibrate
                          (state_copy
                             (minimize_blockmodel_dl g
                                (if truthy (builder_is_weighted
                                              (graph_builder self))
                                 then Some (weights st) else None)
                                (allow_overlap self) deg_corr (gen st)).1
                             (num_vertices g))
                          (n_iters self) (n_init_iters self)
                          (equlibrate_options self)
                          (minimize_blockmodel_dl g
                             (if truthy (builder_is_weighted
                                           (graph_builder self))
                              then Some (weights st) else None)
                             (allow_overlap self) deg_corr (gen st)).2).2 |}).
Proof.
  unfold predict_communities, sweeps_of, fitted.
  destruct (minimize_blockmodel_dl _ _ _ _ _) as [state0 r1]. cbn [fst snd].
  destruct (keyword_clash _); [done|].
  destruct (mcmc_equilibrate _ _ _ _ _) as [[sweeps state2] r2].
  reflexivity.
Qed.

(** X12.  After a call of [predict_communities(deg_corr)] that returned,
    [dls_[deg_corr]] holds the entropy of every state the callback saw, in
    order, and [h_[deg_corr]] is the histogram of their numbers of non-empty
    blocks: one slot for each of [0 .. N], slot [B] counting the states with
    [B] non-empty blocks, so the slots add up to the number of states. *)
Theorem predict_communities_bookkeeping (self : GraphToolCooccurenceClusterer)
    (deg_corr : bool) (st st' : fit_state) :
  predict_communities self deg_corr st = inr st' →
  let sweeps := sweeps_of self deg_corr st in
  let N := num_vertices (coocurence_graph st) in
  dls_ st' !! deg_corr = Some (entropy <$> sweeps)
  ∧ ∃ h, h_ st' !! deg_corr = Some h
         ∧ length h = N + 1
         ∧ sum_list h = length sweeps
         ∧ ∀ B, B ≤ N → h !! B = Some (sweeps_with B sweeps).
Proof.
  rewrite predict_communities_unfold.
  destruct (keyword_clash _); [done|].
  destruct (run_callback _ _) as [e|acc] eqn:Hrun; [done|].
  cbn [bind ret]. intros [= <-]. cbn [dls_ h_].
  apply run_callback_inv in Hrun as (Hdls & Hlen & Hsum & Hh & _).
  cbn [m_dls m_h] in *. rewrite length_replicate in Hlen.
  rewrite sum_list_replicate in Hsum.
  split; [by rewrite lookup_insert_eq, Hdls|].
  exists (m_h acc). split; [apply lookup_insert_eq|]. split; [done|].
  split; [lia|]. intros B HB. rewrite Hh, lookup_replicate_2 by lia. done.
Qed.

(** X13.  [predict_communities(deg_corr)] leaves the graph, the weights and
    every dictionary entry of the other degree-correction setting as they
    were, and stores the equilibrated state under [deg_corr]. *)
Theorem predict_communities_frame (self : GraphToolCooccurenceClusterer)
    (deg_corr : bool) (st st' : fit_state) :
  predict_communities self deg_corr st = inr st' →
  coocurence_graph st' = coocurence_graph st
  ∧ weights st' = weights st
  ∧ state_ st' !! deg_corr = Some (fitted self deg_corr st)
  ∧ dls_ st' !! negb deg_corr = dls_ st !! negb deg_corr
  ∧ vm_ st' !! negb deg_corr = vm_ st !! negb deg_corr
  ∧ em_ st' !! negb deg_corr = em_ st !! negb deg_corr
  ∧ h_ st' !! negb deg_corr = h_ st !! negb deg_corr
  ∧ state_ st' !! negb deg_corr = state_ st !! negb deg_corr
  ∧ S_bethe_ st' !! negb deg_corr = S_bethe_ st !! negb deg_corr
  ∧ S_mf_ st' !! negb deg_corr = S_mf_ st !! negb deg_corr
  ∧ L_ st' !! negb deg_corr = L_ st !! negb deg_corr.
Proof.
  rewrite predict_communities_unfold.
  destruct (keyword_clash _); [done|].
  destruct (run_callback _ _) as [e|acc]; [done|].
  cbn [bind ret]. intros [= <-]. cbn.
  assert (deg_corr ≠ negb deg_corr) by by destruct deg_corr.
  rewrite lookup_insert_eq, !lookup_insert_ne by done. done.
Qed.

(** X14.  When the options clash with no keyword of the call, the calls
    into the library return and the callback meets a state with more
    non-empty blocks than there are vertices, [predict_communities] raises
    the [IndexError] of the first such state: the histogram has [N + 1] slots
    only. *)
Theorem predict_communities_raises (self : GraphToolCooccurenceClusterer)
    (deg_corr : bool) (st : fit_state)
    (pre : list BlockState) (s : BlockState) (post : list BlockState) :
  keyword_clash (equlibrate_options self) = false →
  sweeps_of self deg_corr st = pre ++ s :: post →
  Forall (λ s', get_nonempty_B s' ≤ num_vertices (coocurence_graph st)) pre →
  num_vertices (coocurence_graph st) < get_nonempty_B s →
  predict_communities self deg_corr st = inl (IndexError (get_nonempty_B s)).
Proof.
  intros Hclash Heq Hpre Hs. rewrite predict_communities_unfold, Hclash.
  destruct (run_callback _ _) as [e|acc] eqn:Hrun; cbn [bind ret].
  - apply run_callback_err in Hrun
      as (pre' & s' & post' & Heq' & Hpre' & Hs' & ->).
    cbn [m_h] in *. rewrite length_replicate in *. rewrite Heq in Heq'.
    assert (pre = pre' ∧ s = s') as [_ ->]; [|done].
    clear -Heq' Hpre Hs Hpre' Hs'.
    revert pre' Heq' Hpre'.
    induction pre as [|x pre IH]; intros [|x' pre'] Heq' Hpre';
      cbn in Heq'; injection Heq' as Hx Hrest; subst.
    + done.
    + apply Forall_cons in Hpre' as [? _]. lia.
    + apply Forall_cons in Hpre as [? _]. lia.
    + apply Forall_cons in Hpre as [_ Hpre].
      apply Forall_cons in Hpre' as [_ Hpre'].
      by destruct (IH Hpre _ Hrest Hpre') as [-> ->].
  - apply run_callback_inv in Hrun as (_ & _ & _ & _ & Hall).
    cbn [m_h] in Hall. rewrite length_replicate, Heq in Hall.
    apply Forall_app in Hall as [_ Hall].
    apply Forall_cons in Hall as [Hlt _]. lia.
Qed.

End PredictMore.

Section PredictWitnesses.

Lemma predict_communities_bookkeeping_witness :
  ∃ st',
    predict_communities (example_clusterer None "bethe") true
      (@initial_fit_state stand_in (add_vertex 3 (new_graph false)) ∅ 0) = inr st'
    ∧ dls_ st' !! true = Some [3%Z; 3%Z].
Proof.
  eexists. split; [reflexivity|].
  by destruct (predict_communities_bookkeeping
                 (example_clusterer None "bethe") true
                 (@initial_fit_state stand_in (add_vertex 3 (new_graph false)) ∅ 0)
                 _ eq_refl) as [Hdls _].
Defined.

Lemma predict_communities_frame_witness :
  ∃ st',
    predict_communities (example_clusterer None "bethe") true
      (@initial_fit_state stand_in (add_vertex 3 (new_graph false)) ∅ 0) = inr st'
    ∧ state_ st' !! false = None.
Proof.
  eexists. split; [reflexivity|].
  by destruct (predict_communities_frame
                 (example_clusterer None "bethe") true
                 (@initial_fit_state stand_in (add_vertex 3 (new_graph false)) ∅ 0)
                 _ eq_refl) as (_ & _ & _ & _ & _ & _ & _ & Hstate & _).
Defined.

Lemma predict_communities_raises_witness :
  @predict_communities crowded crowded_clusterer true
    (@initial_fit_state crowded (add_vertex 3 (new_graph false)) ∅ 0)
  = inl (IndexError 4).
Proof.
  apply (@predict_communities_raises crowded crowded_clusterer true
           (@initial_fit_state crowded (add_vertex 3 (new_graph false)) ∅ 0)
           [] (seq 0 3) [seq 0 3]).
  - reflexivity.
  - reflexivity.
  - constructor.
  - cbn. lia.
Defined.

End PredictWitnesses.

(** * Further properties of the cluster extraction *)

Section ExtractionMore.

Implicit Types (blocks : list nat) (ls : gmap nat (list nat)).

Lemma assign_labels_app pre : ∀ ls k rest,
  assign_labels ls k (pre ++ rest)
  = bind (assign_labels ls k pre)
         (λ ls', assign_labels ls' (k + length pre) rest).
Proof.
  induction pre as [|x pre IH]; intros ls k rest; cbn [assign_labels app].
  - cbn. by rewrite Nat.add_0_r.
  - destruct (append_label ls k x) as [e|ls1]; cbn [bind]; [done|].
    rewrite IH. cbn [length]. by rewrite Nat.add_succ_r.
Qed.

(** The first block that is no key stops the loop. *)
Lemma assign_labels_missing ls k pre x post :
  (∀ x', x' ∈ pre → is_Some (ls !! x')) →
  ls !! x = None →
  assign_labels ls k (pre ++ x :: post)
  = inl (KeyError (PyInt (Z.of_nat x))).
Proof.
  intros Hpre Hx. rewrite assign_labels_app.
  destruct (assign_labels_spec pre ls k Hpre) as (ls' & -> & Hls').
  cbn [bind assign_labels]. unfold append_label. by rewrite Hls', Hx.
Qed.

Lemma first_out_of_range n blocks :
  ¬ Forall (λ b, b < n) blocks →
  ∃ pre x post,
    blocks = pre ++ x :: post ∧ Forall (λ b, b < n) pre ∧ n ≤ x.
Proof.
  induction blocks as [|b blocks IH]; intros Hnot.
  - destruct Hnot. constructor.
  - destruct (decide (b < n)) as [Hb|Hb].
    + destruct IH as (pre & x & post & -> & Hpre & Hx).
      { intros Hall. apply Hnot. by constructor. }
      exists (b :: pre), x, post. by repeat split; [constructor|..].
    + exists [], b, blocks. repeat split; [constructor | lia].
Qed.

Lemma label_sets_of_missing blocks pre x post :
  blocks = pre ++ x :: post →
  Forall (λ b, b < length blocks) pre →
  length blocks ≤ x →
  label_sets_of blocks = inl (KeyError (PyInt (Z.of_nat x))).
Proof.
  intros Heq Hpre Hx. unfold label_sets_of.
  rewrite Heq at 2. rewrite assign_labels_missing; [done| |].
  - intros x' Hx'. rewrite Forall_forall in Hpre.
    rewrite empty_label_sets_lookup, decide_True by by apply Hpre. by eexists.
  - by rewrite empty_label_sets_lookup, decide_False by lia.
Qed.

Lemma label_sets_of_inr blocks clusters :
  label_sets_of blocks = inr clusters →
  Forall (λ b, b < length blocks) blocks
  ∧ clusters = List.filter (λ x, 0 <? length x)
                 ((λ b, labels_of_block b 0 blocks) <$> seq 0 (length blocks)).
Proof.
  intros Hrun.
  destruct (decide (Forall (λ b, b < length blocks) blocks)) as [Hall|Hnot].
  - split; [done|]. rewrite (label_sets_of_spec _ Hall) in Hrun.
    by injection Hrun as <-.
  - apply first_out_of_range in Hnot as (pre & x & post & Heq & Hpre & Hx).
    by rewrite (label_sets_of_missing _ _ _ _ Heq Hpre Hx) in Hrun.
Qed.

Lemma elem_of_clusters blocks c :
  c ∈ List.filter (λ x, 0 <? length x)
        ((λ b, labels_of_block b 0 blocks) <$> seq 0 (length blocks)) ↔
  c ≠ [] ∧ ∃ b, b < length blocks ∧ c = labels_of_block b 0 blocks.
Proof.
  rewrite list_elem_of_In, filter_In, <- list_elem_of_In, list_elem_of_fmap.
  split.
  - intros [(b & -> & Hb) Hne]. apply elem_of_seq in Hb. split.
    + intros Hnil. rewrite Hnil in Hne. done.
    + exists b. split; [lia | done].
  - intros [Hne (b & Hb & ->)]. split.
    + exists b. split; [done|]. apply elem_of_seq. lia.
    + destruct (labels_of_block b 0 blocks); done.
Qed.

Lemma labels_of_block_lookup blocks b i :
  i ∈ labels_of_block b 0 blocks ↔ blocks !! i = Some b.
Proof.
  rewrite elem_of_labels_of_block. split.
  - by intros (j & -> & Hj).
  - intros Hi. by exists i.
Qed.

Lemma labels_of_block_sorted b k blocks :
  StronglySorted lt (labels_of_block b k blocks).
Proof.
  revert k. induction blocks as [|x rest IH]; intros k; cbn [labels_of_block];
    [constructor|].
  case_decide; cbn [app]; [|apply IH].
  constructor; [apply IH|]. apply Forall_forall. intros i Hi.
  apply elem_of_labels_of_block in Hi as (j & -> & _). lia.
Qed.

(** When the extraction raises, and what. *)
Lemma label_sets_of_err (blocks : list nat) (e : exn) :
  label_sets_of blocks = inl e ↔
  ∃ pre x post,
    blocks = pre ++ x :: post
    ∧ Forall (λ b, b < length blocks) pre
    ∧ length blocks ≤ x
    ∧ e = KeyError (PyInt (Z.of_nat x)).
Proof.
  split.
  - intros Hrun.
    destruct (decide (Forall (λ b, b < length blocks) blocks)) as [Hall|Hnot].
    + by rewrite (label_sets_of_spec _ Hall) in Hrun.
    + apply first_out_of_range in Hnot as (pre & x & post & Heq & Hpre & Hx).
      exists pre, x, post. split; [done|]. split; [done|]. split; [done|].
      rewrite (label_sets_of_missing _ _ _ _ Heq Hpre Hx) in Hrun.
      by injection Hrun as <-.
  - intros (pre & x & post & Heq & Hpre & Hx & ->).
    by eapply label_sets_of_missing.
Qed.

(** X15.  The grouping loop raises exactly when the block array holds a
    block identifier outside [range(len(found_blocks))], the keys of the
    dictionary; the exception is the [KeyError] of the first such
    identifier. *)
Theorem group_labels_raises (blocks : list nat) (e : exn) :
  group_labels blocks = inl e ↔
  ∃ pre x post,
    blocks = pre ++ x :: post
    ∧ Forall (λ b, b < length blocks) pre
    ∧ length blocks ≤ x
    ∧ e = KeyError (PyInt (Z.of_nat x)).
Proof.
  rewrite <- label_sets_of_err. unfold label_sets_of, group_labels.
  destruct (assign_labels _ _ _) as [e'|ls]; cbn [bind ret].
  - split; by intros [= ->].
  - split; by intros ?.
Qed.

Lemma group_labels_raises_witness :
  group_labels [0; 7; 1] = inl (KeyError (PyInt 7)).
Proof.
  apply group_labels_raises. exists [0], 7, [1].
  split; [reflexivity|]. split; [repeat constructor|].
  split; [cbn; lia | reflexivity].
Defined.

(** X16.  Two labels end up in the same cluster exactly when the block array
    gives them the same block. *)
Theorem same_cluster_iff_same_block (blocks : list nat)
    (clusters : list (list nat)) (i j bi bj : nat) :
  label_sets_of blocks = inr clusters →
  blocks !! i = Some bi →
  blocks !! j = Some bj →
  (∃ c, c ∈ clusters ∧ i ∈ c ∧ j ∈ c) ↔ bi = bj.
Proof.
  intros [Hall ->]%label_sets_of_inr Hi Hj. split.
  - intros (c & (_ & b & _ & ->)%elem_of_clusters & Hic & Hjc).
    apply labels_of_block_lookup in Hic, Hjc. congruence.
  - intros <-. exists (labels_of_block bi 0 blocks).
    assert (i ∈ labels_of_block bi 0 blocks) as Hic
      by by apply labels_of_block_lookup.
    split; [|split; [done | by apply labels_of_block_lookup]].
    apply elem_of_clusters. split.
    + intros Hnil. rewrite Hnil in Hic. by apply elem_of_nil in Hic.
    + exists bi. split; [|done]. rewrite Forall_forall in Hall.
      apply Hall. by eapply list_elem_of_lookup_2.
Qed.

Lemma same_cluster_iff_same_block_witness :
  (∃ c, c ∈ [[1]; [0; 2]] ∧ 0 ∈ c ∧ 2 ∈ c) ↔ 1 = 1.
Proof.
  by apply (same_cluster_iff_same_block [1; 0; 1] [[1]; [0; 2]] 0 2 1 1).
Defined.

(** X17.  Every cluster lists its labels in strictly increasing order. *)
Theorem clusters_sorted (blocks : list nat) (clusters : list (list nat)) :
  label_sets_of blocks = inr clusters →
  Forall (StronglySorted lt) clusters.
Proof.
  intros [_ ->]%label_sets_of_inr. apply Forall_forall. intros c Hc.
  apply elem_of_clusters in Hc as (_ & b & _ & ->).
  apply labels_of_block_sorted.
Qed.

Lemma clusters_sorted_witness :
  Forall (StronglySorted lt) [[1]; [0; 2]].
Proof. by apply (clusters_sorted [1; 0; 1]). Defined.

Lemma length_filter_clusters blocks (l : list nat) :
  length (List.filter (λ x, 0 <? length x)
            ((λ b, labels_of_block b 0 blocks) <$> l))
  = length (filter (λ b, b ∈ blocks) l).
Proof.
  induction l as [|b l IH]; [done|].
  cbn [fmap list_fmap List.filter]. rewrite filter_cons.
  destruct (decide (b ∈ blocks)) as [Hb|Hb].
  - apply list_elem_of_lookup in Hb as [i Hi].
    apply labels_of_block_lookup in Hi.
    destruct (labels_of_block b 0 blocks) as [|x c];
      [by apply elem_of_nil in Hi|].
    cbn [length]. by rewrite <- IH.
  - destruct (labels_of_block b 0 blocks) as [|x c] eqn:Hc; [exact IH|].
    destruct Hb. apply list_elem_of_lookup. exists x.
    apply labels_of_block_lookup. rewrite Hc. left.
Qed.

(** X18.  [self.model_count = len(self.label_sets)], once the grouping
    loop has succeeded: on Python 2 the value stored is the number of
    distinct block identifiers in the block array; on Python 3 the statement
    raises [TypeError] and nothing is stored. *)
Theorem cluster_count (blocks : list nat) (clusters : list (list nat)) :
  label_sets_of blocks = inr clusters →
  len_of_filter Python2 clusters = inr (length (remove_dups blocks))
  ∧ len_of_filter Python3 clusters
    = inl (TypeError "object of type 'filter' has no len()").
Proof.
  intros [Hall ->]%label_sets_of_inr. split; [|done].
  cbn [len_of_filter ret]. f_equal. rewrite length_filter_clusters.
  apply Permutation_length, NoDup_Permutation.
  - apply NoDup_filter, NoDup_seq.
  - apply NoDup_remove_dups.
  - intros b. rewrite list_elem_of_filter, elem_of_remove_dups, elem_of_seq.
    split; [by intros [? _]|]. intros Hb. split; [done|].
    rewrite Forall_forall in Hall. specialize (Hall b Hb). lia.
Qed.

Lemma cluster_count_witness :
  len_of_filter Python2 [[1]; [0; 2]] = inr (length (remove_dups [1; 0; 1]))
  ∧ len_of_filter Python3 [[1]; [0; 2]]
    = inl (TypeError "object of type 'filter' has no len()").
Proof. by apply (cluster_count [1; 0; 1]). Defined.

End ExtractionMore.

(** * Further properties of [fit_predict] *)

Section FitPredictMore.
Context `{GraphTool}.

(** What a call of [predict_communities] that returned has written: the
    entropies are those of the marginals the callback collected, [L] is minus
    the mean of the description lengths it recorded. *)
Lemma predict_communities_entries self deg_corr st st' :
  predict_communities self deg_corr st = inr st' →
  ∃ L mf be,
    coocurence_graph st' = coocurence_graph st
    ∧ state_ st' = <[deg_corr := fitted self deg_corr st]> (state_ st)
    ∧ L_ st' = <[deg_corr := L]> (L_ st)
    ∧ S_mf_ st' = <[deg_corr := mf]> (S_mf_ st)
    ∧ S_bethe_ st' = <[deg_corr := be]> (S_bethe_ st)
    ∧ stdout st' = stdout st ++
        (if verbose self then [(deg_corr, fadd L mf, fadd L be)] else [])
    ∧ L = fneg (mean (entropy <$> sweeps_of self deg_corr st))
    ∧ mf = mf_entropy (coocurence_graph st)
             (collected_vm (sweeps_of self deg_corr st))
    ∧ be = bethe_entropy (coocurence_graph st)
             (collected_em (sweeps_of self deg_corr st)).
Proof.
  rewrite predict_communities_unfold.
  destruct (keyword_clash _); [done|].
  destruct (run_callback _ _) as [e|acc] eqn:Hrun; [done|].
  cbn [bind ret]. intros [= <-]. cbn.
  destruct (run_callback_marginals _ _ _ Hrun) as [Hvm Hem].
  destruct (run_callback_inv _ _ _ Hrun) as (Hdls & _).
  cbn in Hvm, Hem, Hdls. rewrite Hvm, Hem, Hdls.
  by eexists _, _, _.
Qed.

(** What [select_model] compares when both models are fitted: the
    mean-field entropies of the two fits, or their Bethe entropies when the
    criterium is ['bethe'].  The description lengths, and so the model
    evidence [L + S] that [predict_communities] prints, play no part. *)
Lemma select_model_compares_entropies self st which st' :
  use_degree_corr self = None →
  select_model self st = inr (which, st') →
  ∃ st1,
    predict_communities self true st = inr st1
    ∧ predict_communities self false st1 = inr st'
    ∧ which
      = if bool_decide (model_selection_criterium self = "bethe")
        then flt (bethe_entropy (coocurence_graph st)
                    (collected_em (sweeps_of self true st)))
                 (bethe_entropy (coocurence_graph st)
                    (collected_em (sweeps_of self false st1)))
        else flt (mf_entropy (coocurence_graph st)
                    (collected_vm (sweeps_of self true st)))
                 (mf_entropy (coocurence_graph st)
                    (collected_vm (sweeps_of self false st1))).
Proof.
  intros Hnone. unfold select_model. rewrite Hnone.
  destruct (predict_communities self true st) as [e|st1] eqn:Hrun1; [done|].
  cbn [bind].
  destruct (predict_communities self false st1) as [e|st2] eqn:Hrun2; [done|].
  cbn [bind].
  destruct (predict_communities_entries _ _ _ _ Hrun1)
    as (L1 & mf1 & be1 & Hg1 & _ & _ & Hmf1 & Hbe1 & _ & _ & -> & ->).
  destruct (predict_communities_entries _ _ _ _ Hrun2)
    as (L2 & mf2 & be2 & _ & _ & _ & Hmf2 & Hbe2 & _ & _ & -> & ->).
  rewrite Hmf1 in Hmf2. rewrite Hbe1 in Hbe2. rewrite Hg1 in Hmf2, Hbe2.
  match type of Hmf2 with _ = <[false := ?b]> (<[true := ?a]> _) =>
    destruct (lookup_both (S_mf_ st) a b) as [Hmt Hmff] end.
  match type of Hbe2 with _ = <[false := ?b]> (<[true := ?a]> _) =>
    destruct (lookup_both (S_bethe_ st) a b) as [Hbt Hbf] end.
  rewrite <- Hmf2 in Hmt, Hmff. rewrite <- Hbe2 in Hbt, Hbf.
  case_bool_decide.
  - rewrite (getitem_bind _ _ _ _ Hbt), (getitem_bind _ _ _ _ Hbf).
    cbn [bind ret]. intros [= <- <-]. by exists st1.
  - rewrite (getitem_bind _ _ _ _ Hmt), (getitem_bind _ _ _ _ Hmff).
    cbn [bind ret]. intros [= <- <-]. by exists st1.
Qed.

(** X19.  A failure of the edge-map builder is the failure of [fit_predict]:
    the exception [transform] raises is passed on unchanged, on either
    interpreter and whatever the library would do. *)
Theorem builder_failure_propagates (py : python)
    (self : GraphToolCooccurenceClusterer)
    (y : label_matrix) (r : rng) (e : exn) :
  transform (graph_builder self) y = inl e →
  fit_predict py self y r = inl e.
Proof.
  intros Hfail. unfold fit_predict.
  apply (build_graph_instance_err _ (n_labels y)) in Hfail. by rewrite Hfail.
Qed.

(** What a run of [fit_predict] that returned went through. *)
Lemma fit_predict_inr py self y r clusters st :
  fit_predict py self y r = inr (clusters, st) →
  ∃ g wts which,
    build_graph_instance (graph_builder self) (n_labels y) y = inr (g, wts)
    ∧ select_model self (initial_fit_state g wts r) = inr (which, st).
Proof.
  unfold fit_predict.
  destruct (build_graph_instance _ _ _) as [e'|[g wts]] eqn:Hbuild; [done|].
  cbn [bind fst snd].
  destruct (select_model _ _) as [e'|[which st']] eqn:Hsel; [done|].
  cbn [bind fst snd].
  destruct (getitem _ _) as [e'|s]; [done|]. cbn [bind].
  destruct (label_sets_of _) as [e'|ls]; [done|]. cbn [bind].
  destruct (len_of_filter _ _) as [e'|n]; [done|]. cbn [bind ret].
  intros [= _ <-]. by exists g, wts, which.
Qed.

(** X20.  A run of [fit_predict] that returns prints nothing unless
    [verbose] is set; with [verbose] it prints one line per fitted model, the
    degree-corrected one first when both are fitted, and each line shows
    [L + S_mf] and [L + S_bethe] of the entries stored for that model. *)
Theorem fit_predict_prints (py : python)
    (self : GraphToolCooccurenceClusterer)
    (y : label_matrix) (r : rng) (clusters : list (list nat))
    (st : fit_state) :
  fit_predict py self y r = inr (clusters, st) →
  (stdout st).*1.*1
  = (if verbose self
     then match use_degree_corr self with
          | None => [true; false]
          | Some deg_corr => [deg_corr]
          end
     else [])
  ∧ ∀ deg_corr a b, (deg_corr, a, b) ∈ stdout st →
      ∃ L mf be,
        L_ st !! deg_corr = Some L
        ∧ S_mf_ st !! deg_corr = Some mf
        ∧ S_bethe_ st !! deg_corr = Some be
        ∧ a = fadd L mf ∧ b = fadd L be.
Proof.
  intros (g & wts & which & _ & Hsel)%fit_predict_inr.
  unfold select_model in Hsel.
  destruct (use_degree_corr self) as [deg_corr|].
  - destruct (predict_communities _ _ _) as [e|st1] eqn:Hrun; [done|].
    cbn [bind ret] in Hsel. injection Hsel as _ <-.
    apply predict_communities_entries in Hrun
      as (L & mf & be & _ & _ & HL & Hmf & Hbe & Hout & _).
    cbn in Hout. rewrite Hout, HL, Hmf, Hbe.
    destruct (verbose self); (split; [done|]); intros dc a b Hin;
      [|by apply elem_of_nil in Hin].
    apply list_elem_of_singleton in Hin as [= -> -> ->].
    exists L, mf, be. by rewrite !lookup_insert_eq.
  - destruct (predict_communities self true _) as [e|st1] eqn:Hrun1; [done|].
    cbn [bind] in Hsel.
    destruct (predict_communities self false _) as [e|st2] eqn:Hrun2; [done|].
    cbn [bind] in Hsel.
    destruct (getitem _ true) as [e|ct]; [done|]. cbn [bind] in Hsel.
    destruct (getitem _ false) as [e|cf]; [done|]. cbn [bind ret] in Hsel.
    injection Hsel as _ <-.
    apply predict_communities_entries in Hrun1
      as (L1 & mf1 & be1 & _ & _ & HL1 & Hmf1 & Hbe1 & Hout1 & _).
    apply predict_communities_entries in Hrun2
      as (L2 & mf2 & be2 & _ & _ & HL2 & Hmf2 & Hbe2 & Hout2 & _).
    cbn in Hout1. rewrite Hout1 in Hout2.
    rewrite HL1 in HL2. rewrite Hmf1 in Hmf2. rewrite Hbe1 in Hbe2.
    rewrite Hout2, HL2, Hmf2, Hbe2.
    destruct (verbose self); (split; [done|]); intros dc a b Hin;
      [|by apply elem_of_nil in Hin].
    apply elem_of_cons in Hin as [[= -> -> ->] | Hin].
    + exists L1, mf1, be1.
      by rewrite !lookup_insert_ne, !lookup_insert_eq by done.
    + apply list_elem_of_singleton in Hin as [= -> -> ->].
      exists L2, mf2, be2. by rewrite !lookup_insert_eq.
Qed.

(** X21.  With [use_degree_corr] fixed to a boolean,
    [model_selection_criterium] has no effect on [fit_predict]. *)
Theorem criterium_unused_when_forced (py : python)
    (self : GraphToolCooccurenceClusterer)
    (criterium : string) (deg_corr : bool) (y : label_matrix) (r : rng) :
  use_degree_corr self = Some deg_corr →
  fit_predict py (with_criterium self criterium) y r = fit_predict py self y r.
Proof.
  intros Hforced. unfold fit_predict, select_model.
  cbn [with_criterium use_degree_corr graph_builder]. by rewrite Hforced.
Qed.

(** X22.  The criterium is not validated: with [use_degree_corr=None] every
    string other than ['bethe'] selects by the mean-field entries, exactly as
    ['mean_field'] does. *)
Theorem unknown_criterium_is_mean_field (py : python)
    (self : GraphToolCooccurenceClusterer)
    (criterium : string) (y : label_matrix) (r : rng) :
  criterium ≠ "bethe" →
  fit_predict py (with_criterium self criterium) y r
  = fit_predict py (with_criterium self "mean_field") y r.
Proof.
  intros Hne. unfold fit_predict, select_model.
  cbn [with_criterium use_degree_corr graph_builder model_selection_criterium].
  rewrite (bool_decide_eq_false_2 _ Hne).
  by rewrite (bool_decide_eq_false_2 ("mean_field" = "bethe")) by done.
Qed.

End FitPredictMore.

Section FitPredictWitnesses.

(** A builder that always fails. *)
Lemma builder_failure_propagates_witness :
  fit_predict Python2
    {| graph_builder :=
         {| transform := λ _, inl (ValueError "unsupported matrix");
            builder_is_weighted := PyBool true |};
       allow_overlap := false; n_iters := 2; n_init_iters := 1;
       use_degree_corr := None; model_selection_criterium := "bethe";
       verbose := false; equlibrate_options := ∅ |} example_y 0
  = inl (ValueError "unsupported matrix").
Proof. by apply builder_failure_propagates. Defined.

Lemma fit_predict_prints_witness :
  ∃ clusters st,
    fit_predict Python2 (example_clusterer None "bethe") example_y 0
      = inr (clusters, st)
    ∧ (stdout st).*1.*1 = [true; false].
Proof.
  destruct (fit_predict Python2 (example_clusterer None "bethe") example_y 0)
    as [e|[clusters st]] eqn:Hrun; [by vm_compute in Hrun|].
  exists clusters, st. split; [done|].
  by destruct (fit_predict_prints _ _ _ _ _ _ Hrun) as [Hout _].
Defined.

Lemma criterium_unused_when_forced_witness :
  fit_predict Python2
    (with_criterium (example_clusterer (Some true) "mean_field") "bethe")
    example_y 0
  = fit_predict Python2 (example_clusterer (Some true) "mean_field")
      example_y 0.
Proof. by apply (criterium_unused_when_forced _ _ _ true). Defined.

Lemma unknown_criterium_is_mean_field_witness :
  fit_predict Python2
    (with_criterium (example_clusterer None "bethe") "Bethe") example_y 0
  = fit_predict Python2
      (with_criterium (example_clusterer None "bethe") "mean_field")
      example_y 0.
Proof. by apply unknown_criterium_is_mean_field. Defined.

End FitPredictWitnesses.

(** * The decision and the model evidence *)

Section Evidence.

(** C2, at runs of the library that agree on the model evidence.  With the
    mean-field criterium, both runs print the same evidence [L + S] for the
    two fits (2 and 5 for the degree-corrected model, 2 and 3 for the plain
    one); yet the first run uses the degree-corrected fit (one cluster per
    label) and the second the plain fit (one cluster).  The choice follows
    the mean-field entropies alone, 1 against 2 and then 2 against 1.  The
    same holds of the Bethe criterium and the Bethe entropies: what
    [fit_predict] compares is no model evidence. *)
Theorem selection_ignores_evidence :
  evidence_run "mean_field"
    (λ d, if d then 1 else 2)%Z (λ d, if d then 4 else 3)%Z
    (λ d, if d then 1 else 0)%Z
  = inr ([[0]; [1]; [2]], [(true, 2%Z, 5%Z); (false, 2%Z, 3%Z)])
  ∧ evidence_run "mean_field"
      (λ d, if d then 2 else 1)%Z (λ d, if d then 5 else 2)%Z
      (λ d, if d then 0 else 1)%Z
    = inr ([[0; 1; 2]], [(true, 2%Z, 5%Z); (false, 2%Z, 3%Z)])
  ∧ evidence_run "bethe"
      (λ d, if d then 4 else 3)%Z (λ d, if d then 1 else 2)%Z
      (λ d, if d then 1 else 0)%Z
    = inr ([[0]; [1]; [2]], [(true, 5%Z, 2%Z); (false, 3%Z, 2%Z)])
  ∧ evidence_run "bethe"
      (λ d, if d then 5 else 2)%Z (λ d, if d then 2 else 1)%Z
      (λ d, if d then 0 else 1)%Z
    = inr ([[0; 1; 2]], [(true, 5%Z, 2%Z); (false, 3%Z, 2%Z)]).
Proof.
  split; [by vm_compute|]. split; [by vm_compute|].
  split; by vm_compute.
Qed.

End Evidence.
